(** * libstorage client: a shallow embedding of [api/client/client.go]

    Part I holds the definitions, in the order of their dependencies:
    - [Str]: tests on characters and strings;
    - [Regexp]: the part of Go's [regexp] package that [getLocalDevices]
      exercises (pattern compilation and leftmost-first submatch search);
    - [Bufio]: [bufio.Scanner] with the default [ScanLines] split function;
    - [error]: Go's error values;
    - [Json]: [encoding/json] for values built from booleans, integers,
      strings and slices;
    - [Gofig]: the configuration store;
    - [Client]: the client of [client.go], function by function: [Dial],
      [encPayload], [decRes], [logRequest], [logResponse], [httpDo] and its
      callers, [Root], [Volumes], [getLocalDevices];
    - [Examples]: concrete settings on which the definitions run.

    Part II holds the facts: [RegexpFacts] and [LocalDevicesFacts] about
    the device scanner, [JsonFacts] about the codec, [ClientFacts],
    [DispatchFacts] and [ExchangeFacts] about [Dial] and the dispatcher.

    Go strings are modelled as [string], one [ascii] for each byte.  The
    regular expressions read a text byte by byte, which is how Go reads
    ASCII text; the JSON codec follows Go in reading UTF-8. *)

From Stdlib Require Import ZArith NArith Bool Ascii String Lia.
From Stdlib Require Import DecimalString DecimalFacts DecimalPos DecimalZ.
From stdpp Require Import base option list strings gmap.

Local Open Scope stdpp_scope.

#[local] Set Warnings "-register-all".

(** String concatenation computes under [simpl] in this file. *)
#[local] Arguments String.append !s1 s2 : simpl nomatch.

(** ** Strings *)

Module Str.

Definition code (c : ascii) : N := N_of_ascii c.

(** [is_char "x" c]: [c] is the character [x]. *)
Definition is_char (x : string) (c : ascii) : bool :=
  match x with
  | String y EmptyString => Ascii.eqb y c
  | _ => false
  end.

Definition is_ascii7 (c : ascii) : bool := (code c <? 128)%N.

(** The double quote. *)
Definition dquote : ascii := ascii_of_N 34.

Definition is_dquote (c : ascii) : bool := Ascii.eqb dquote c.

Definition between (lo hi : N) (c : ascii) : bool :=
  ((lo <=? code c) && (code c <=? hi))%N.

Fixpoint all (p : ascii -> bool) (s : string) : bool :=
  match s with
  | EmptyString => true
  | String c s' => p c && all p s'
  end.

Fixpoint count (p : ascii -> bool) (s : string) : nat :=
  match s with
  | EmptyString => 0
  | String c s' => (if p c then 1 else 0) + count p s'
  end.

(** [strings.HasPrefix s p] *)
Fixpoint has_prefix (s p : string) {struct p} : bool :=
  match p, s with
  | EmptyString, _ => true
  | String x p', String y s' => Ascii.eqb x y && has_prefix s' p'
  | String _ _, EmptyString => false
  end.

End Str.

(** ** Go's [regexp] package, as far as the client uses it *)

Module Regexp.

Import Str.

(** Perl character classes of RE2: [\s] is [[\t\n\f\r ]], [\w] is
    [[0-9A-Za-z_]], [\d] is [[0-9]]. *)
Definition is_space (c : ascii) : bool :=
  let n := code c in
  ((n =? 9) || (n =? 10) || (n =? 12) || (n =? 13) || (n =? 32))%N.

Definition is_digit (c : ascii) : bool :=
  let n := code c in ((48 <=? n) && (n <=? 57))%N.

Definition is_word (c : ascii) : bool :=
  let n := code c in
  (is_digit c || ((65 <=? n) && (n <=? 90)) || ((97 <=? n) && (n <=? 122))
   || (n =? 95))%N.

Definition is_newline (c : ascii) : bool := (code c =? 10)%N.

(** A single-character matcher ([OpLiteral] of one rune,
    [OpAnyCharNotNL], [OpCharClass] of a Perl class). *)
Inductive cset :=
| CLit (c : ascii)
| CAny
| CSpace | CWord | CDigit
| CNotSpace | CNotWord | CNotDigit.

Definition cset_mem (cs : cset) (c : ascii) : bool :=
  match cs with
  | CLit x => Ascii.eqb x c
  | CAny => negb (is_newline c)
  | CSpace => is_space c
  | CWord => is_word c
  | CDigit => is_digit c
  | CNotSpace => negb (is_space c)
  | CNotWord => negb (is_word c)
  | CNotDigit => negb (is_digit c)
  end.

(** Repetition operators [*], [+], [?]. *)
Inductive rep := Star | Plus | Quest.

(** The syntax tree ([syntax.Regexp]).  A repetition applies to a
    single-character matcher only; see [parse]. *)
Inductive regex :=
| RChar (cs : cset)
| RRep (cs : cset) (op : rep) (greedy : bool)
| RBol                       (* [^], OpBeginText *)
| REol                       (* [$], OpEndText   *)
| RGroup (n : nat) (r : regex)
| RConcat (rs : list regex)
| RAlt (rs : list regex).

(** *** Parsing ([syntax.Parse] with the Perl flags)

    Like Go's parser this one scans the pattern once, left to right,
    keeping a stack of the groups that are still open. *)

Record frame := Frame {
  alts : list regex;   (* alternatives already closed by [|], newest first *)
  items : list regex   (* the concatenation being read, newest first *)
}.

Definition empty_frame : frame := Frame [] [].

Definition push (r : regex) (f : frame) : frame :=
  Frame (alts f) (r :: items f).

Definition close_frame (f : frame) : regex :=
  let cur := RConcat (rev (items f)) in
  match alts f with
  | [] => cur
  | _ => RAlt (rev (cur :: alts f))
  end.

(** The characters [regexp.QuoteMeta] escapes. *)
Definition is_meta (c : ascii) : bool :=
  is_char "\" c || is_char "." c || is_char "+" c || is_char "*" c
  || is_char "?" c || is_char "(" c || is_char ")" c || is_char "|" c
  || is_char "[" c || is_char "]" c || is_char "{" c || is_char "}" c
  || is_char "^" c || is_char "$" c.

Definition rep_of (c : ascii) : option rep :=
  if is_char "*" c then Some Star
  else if is_char "+" c then Some Plus
  else if is_char "?" c then Some Quest
  else None.

(** What follows a backslash. *)
Definition escape (c : ascii) : option cset :=
  if is_char "s" c then Some CSpace
  else if is_char "w" c then Some CWord
  else if is_char "d" c then Some CDigit
  else if is_char "S" c then Some CNotSpace
  else if is_char "W" c then Some CNotWord
  else if is_char "D" c then Some CNotDigit
  else if is_meta c then Some (CLit c)
  else None.

(** [parse s ncap f stk]: [ncap] groups opened so far, [f] the frame being
    filled, [stk] the enclosing frames with the number of their group.

    [None] stands for a pattern without a program in this model: one
    that [regexp.Compile] rejects (an unmatched parenthesis, a repetition
    operator without argument or stacked on another one, a trailing
    backslash) or one that uses syntax left out here (bracket
    classes, counted repetition, flags and non-capturing groups, other
    escapes, repetition of a group or of an empty-width assertion,
    non-ASCII characters). *)
Fixpoint parse (s : string) (ncap : nat) (f : frame)
    (stk : list (nat * frame)) {struct s} : option (regex * nat) :=
  match s with
  | EmptyString =>
      match stk with
      | [] => Some (close_frame f, ncap)
      | _ :: _ => None
      end
  | String c s' =>
      if is_char "(" c then
        match s' with
        | String c2 _ =>
            if is_char "?" c2 then None
            else parse s' (S ncap) empty_frame ((S ncap, f) :: stk)
        | EmptyString => None
        end
      else if is_char ")" c then
        match stk with
        | [] => None
        | (n, parent) :: stk' =>
            parse s' ncap (push (RGroup n (close_frame f)) parent) stk'
        end
      else if is_char "|" c then
        parse s' ncap
          (Frame (RConcat (rev (items f)) :: alts f) []) stk
      else if is_char "\" c then
        match s' with
        | String e s'' =>
            match escape e with
            | Some cs => parse s'' ncap (push (RChar cs) f) stk
            | None => None
            end
        | EmptyString => None
        end
      else if is_char "." c then parse s' ncap (push (RChar CAny) f) stk
      else if is_char "^" c then parse s' ncap (push RBol f) stk
      else if is_char "$" c then parse s' ncap (push REol f) stk
      else
        match rep_of c with
        | Some op =>
            match items f with
            | RChar cs :: its =>
                match s' with
                | String c2 s'' =>
                    if is_char "?" c2
                    then parse s'' ncap (Frame (alts f) (RRep cs op false :: its)) stk
                    else parse s' ncap (Frame (alts f) (RRep cs op true :: its)) stk
                | EmptyString =>
                    parse s' ncap (Frame (alts f) (RRep cs op true :: its)) stk
                end
            | _ => None
            end
        | None =>
            if is_meta c || negb (is_ascii7 c) then None
            else parse s' ncap (push (RChar (CLit c)) f) stk
        end
  end.

(** A compiled expression ([*regexp.Regexp]). *)
Record Regexp := { prog : regex; numSubexp : nat }.

(** [regexp.MustCompile].  [None] is a pattern without a program in
    this model (see [parse]): [MustCompile] panics for the ones Go
    rejects, and what it returns for the others is not modelled. *)
Definition MustCompile (pattern : string) : option Regexp :=
  match parse pattern 0 empty_frame [] with
  | Some (r, n) => Some {| prog := r; numSubexp := n |}
  | None => None
  end.

(** *** Matching

    A backtracking matcher in continuation-passing style.  Alternatives
    are tried in the order a Perl-style engine tries them, so the first
    success is the leftmost-first match Go reports. *)

Record mstate := MState {
  pos : nat;                     (* offset of [rest] in the searched text *)
  rest : string;                 (* text not yet consumed *)
  caps : list (nat * string)     (* groups closed so far, newest first *)
}.

Definition cont := mstate -> option (list (nat * string)).

Definition orelse {A} (x y : option A) : option A :=
  match x with
  | Some _ => x
  | None => y
  end.

Definition step (cs : cset) (k : cont) (st : mstate) : option (list (nat * string)) :=
  match rest st with
  | String c s' =>
      if cset_mem cs c then k (MState (S (pos st)) s' (caps st)) else None
  | EmptyString => None
  end.

(** [cs*], greedy or not, by recursion on the text. *)
Fixpoint star (cs : cset) (greedy : bool) (k : cont)
    (p : nat) (s : string) (cp : list (nat * string)) {struct s}
    : option (list (nat * string)) :=
  match s with
  | String c s' =>
      if cset_mem cs c then
        if greedy
        then orelse (star cs greedy k (S p) s' cp) (k (MState p s cp))
        else orelse (k (MState p s cp)) (star cs greedy k (S p) s' cp)
      else k (MState p s cp)
  | EmptyString => k (MState p s cp)
  end.

Definition star_k (cs : cset) (greedy : bool) (k : cont) : cont :=
  fun st => star cs greedy k (pos st) (rest st) (caps st).

Definition repeat (cs : cset) (op : rep) (greedy : bool) (k : cont) : cont :=
  match op with
  | Star => star_k cs greedy k
  | Plus => step cs (star_k cs greedy k)
  | Quest =>
      fun st =>
        if greedy then orelse (step cs k st) (k st)
        else orelse (k st) (step cs k st)
  end.

Definition set_cap (n : nat) (from upto : mstate) : mstate :=
  MState (pos upto) (rest upto)
    ((n, String.substring 0 (pos upto - pos from) (rest from)) :: caps upto).

Fixpoint run (r : regex) (k : cont) (st : mstate) {struct r}
    : option (list (nat * string)) :=
  match r with
  | RChar cs => step cs k st
  | RRep cs op greedy => repeat cs op greedy k st
  | RBol => if Nat.eqb (pos st) 0 then k st else None
  | REol =>
      match rest st with
      | EmptyString => k st
      | String _ _ => None
      end
  | RGroup n r' => run r' (fun st' => k (set_cap n st st')) st
  | RConcat rs =>
      (fix seq (rs : list regex) (k : cont) {struct rs} : cont :=
         match rs with
         | [] => k
         | r' :: rs' => run r' (seq rs' k)
         end) rs k st
  | RAlt rs =>
      (fix alt (rs : list regex) {struct rs} : option (list (nat * string)) :=
         match rs with
         | [] => None
         | r' :: rs' => orelse (run r' k st) (alt rs')
         end) rs
  end.

(** The unanchored search: the first start offset with a match wins.
    Group 0 is the whole match. *)
Fixpoint search (r : regex) (p : nat) (s : string) {struct s}
    : option (list (nat * string)) :=
  match run (RGroup 0 r) (fun st => Some (caps st)) (MState p s []) with
  | Some cp => Some cp
  | None =>
      match s with
      | String _ s' => search r (S p) s'
      | EmptyString => None
      end
  end.

(** The text of group [n]: the capture closed last, the empty string for
    a group that took no part in the match. *)
Fixpoint cap_text (n : nat) (cp : list (nat * string)) : string :=
  match cp with
  | [] => ""
  | (m, t) :: cp' => if Nat.eqb m n then t else cap_text n cp'
  end.

(** [Regexp.FindStringSubmatch]: [nil] without a match, otherwise the
    texts of the groups [0 .. numSubexp]. *)
Definition FindStringSubmatch (re : Regexp) (s : string) : list string :=
  match search (prog re) 0 s with
  | Some cp => map (fun n => cap_text n cp) (seq 0 (S (numSubexp re)))
  | None => []
  end.

(** *** The device pattern, for a prefix without operators *)

(** A character that stands for itself in a pattern. *)
Definition literal (c : ascii) : bool := negb (is_meta c) && is_ascii7 c.

(** The matchers of a literal text, one for each character. *)
Fixpoint lits (p : string) : list regex :=
  match p with
  | EmptyString => []
  | String c p' => RChar (CLit c) :: lits p'
  end.

(** The program of [^.+?\s(p\w+)$] for a literal [p]. *)
Definition device_rx (p : string) : regex :=
  RConcat [RBol; RRep CAny Plus false; RChar CSpace;
           RGroup 1 (RConcat (lits p ++ [RRep CWord Plus true]));
           REol].

(** [run_seq rs k]: the matchers [rs] one after the other, then [k]; this
    is how [run] treats a concatenation. *)
Fixpoint run_seq (rs : list regex) (k : cont) : cont :=
  match rs with
  | [] => k
  | r :: rs' => run r (run_seq rs' k)
  end.

End Regexp.

(** ** [bufio.Scanner] with the [ScanLines] split function *)

Module Bufio.

(** [bufio.MaxScanTokenSize]: the scanner's buffer never grows beyond it. *)
Definition MaxScanTokenSize : N := 65536.

Definition is_cr (c : ascii) : bool := (Str.code c =? 13)%N.

(** [dropCR]: one trailing carriage return is removed. *)
Fixpoint dropCR (s : string) : string :=
  match s with
  | EmptyString => EmptyString
  | String c EmptyString => if is_cr c then EmptyString else s
  | String c s' => String c (dropCR s')
  end.

(** The data cut at its newlines.  The text after the last newline is a
    line of its own unless it is empty. *)
Fixpoint split_lines (data : string) : list string :=
  match data with
  | EmptyString => []
  | String c data' =>
      if Regexp.is_newline c then EmptyString :: split_lines data'
      else
        match split_lines data' with
        | [] => [String c EmptyString]
        | l :: ls => String c l :: ls
        end
  end.

(** A line fits the buffer when it is shorter than the buffer (with its
    newline, or with the room the scanner needs to see the end of the
    data).  At the first line that does not fit, [Scan] reports
    [ErrTooLong] by returning [false]. *)
Definition fits (l : string) : bool :=
  (N.of_nat (String.length l) <? MaxScanTokenSize)%N.

Fixpoint while_fits (ls : list string) : list string :=
  match ls with
  | [] => []
  | l :: ls' => if fits l then l :: while_fits ls' else []
  end.

(** The tokens [scan.Text()] yields over the calls of [scan.Scan()] that
    return [true]. *)
Definition scan (data : string) : list string :=
  map dropCR (while_fits (split_lines data)).

End Bufio.

(** ** Go's [error] values

    An [error] is modelled by the dynamic type of the value, for the error
    types that can reach this client. *)

Inductive ctx_error :=
| Canceled                 (* context.Canceled *)
| DeadlineExceeded.        (* context.DeadlineExceeded *)

Inductive error :=
| goof_Error (msg : string)
| os_PathError (op path msg : string)
| json_SyntaxError (msg : string)
| json_UnmarshalTypeError (val typ : string)
| json_UnsupportedTypeError (typ : string)
| url_Error (op url msg : string)
| context_Error (e : ctx_error)
| errors_New (msg : string).

(** ** Go's [encoding/json], for values built from [bool], [int],
    [string] and slices *)

Module Json.
Import Str.

(** Go types: [bool], [int] (of 64 bits), [string], [[]t], and a
    channel type for the types [encoding/json] does not support. *)
Inductive type := TBool | TInt | TString | TSlice (t : type) | TChan.

(** A Go value.  [VNil] is the nil slice; [VChan] stands for a value
    of a type [encoding/json] does not support. *)
Inductive value :=
| VNil
| VBool (b : bool)
| VInt (n : Z)
| VString (s : string)
| VSlice (l : list value)
| VChan.

(** The zero value of a type. *)
Definition zero (t : type) : value :=
  match t with
  | TBool => VBool false
  | TInt => VInt 0
  | TString => VString ""
  | TSlice _ => VNil
  | TChan => VChan
  end.

(** *** UTF-8 ([unicode/utf8]) *)

Definition cont_byte (c : ascii) : bool := between 128 191 c.

Definition valid2 (c0 c1 : ascii) : bool := between 194 223 c0 && cont_byte c1.

Definition valid3 (c0 c1 c2 : ascii) : bool :=
  ((is_char (String (ascii_of_N 224) "") c0 && between 160 191 c1)
   || (between 225 236 c0 && cont_byte c1)
   || (is_char (String (ascii_of_N 237) "") c0 && between 128 159 c1)
   || (between 238 239 c0 && cont_byte c1))
  && cont_byte c2.

Definition valid4 (c0 c1 c2 c3 : ascii) : bool :=
  ((is_char (String (ascii_of_N 240) "") c0 && between 144 191 c1)
   || (between 241 243 c0 && cont_byte c1)
   || (is_char (String (ascii_of_N 244) "") c0 && between 128 143 c1))
  && cont_byte c2 && cont_byte c3.

Definition byte (n : N) : ascii := ascii_of_N n.

(** [utf8.EncodeRune] for a rune that is no surrogate and at most
    U+10FFFF. *)
Definition encode_rune (r : N) : string :=
  if (r <? 128)%N then String (byte r) ""
  else if (r <? 2048)%N then
    String (byte (N.lor 192 (N.shiftr r 6)))
      (String (byte (N.lor 128 (N.land r 63))) "")
  else if (r <? 65536)%N then
    String (byte (N.lor 224 (N.shiftr r 12)))
      (String (byte (N.lor 128 (N.land (N.shiftr r 6) 63)))
         (String (byte (N.lor 128 (N.land r 63))) ""))
  else
    String (byte (N.lor 240 (N.shiftr r 18)))
      (String (byte (N.lor 128 (N.land (N.shiftr r 12) 63)))
         (String (byte (N.lor 128 (N.land (N.shiftr r 6) 63)))
            (String (byte (N.lor 128 (N.land r 63))) ""))).

(** U+FFFD, the replacement character. *)
Definition replacement : string := encode_rune 65533.

(** *** Encoding *)

Definition hex_digit (n : N) : ascii :=
  if (n <? 10)%N then byte (48 + n) else byte (87 + n).

(** The characters the encoder copies: ASCII from the space on, except
    the quote, the backslash and, since [Marshal] escapes for HTML,
    [<], [>] and [&]. *)
Definition html_safe (c : ascii) : bool :=
  (32 <=? code c)%N && is_ascii7 c
  && negb (is_dquote c || is_char "\" c || is_char "<" c
           || is_char ">" c || is_char "&" c).

Definition escape_ascii (c : ascii) : string :=
  if html_safe c then String c ""
  else if is_dquote c || is_char "\" c then String "\" (String c "")
  else if (code c =? 10)%N then "\n"
  else if (code c =? 13)%N then "\r"
  else if (code c =? 9)%N then "\t"
  else
    "\u00" +:+ String (hex_digit (N.shiftr (code c) 4))
                 (String (hex_digit (N.land (code c) 15)) "").

Definition is_u2028 (c0 c1 c2 : ascii) : bool :=
  (code c0 =? 226)%N && (code c1 =? 128)%N && (code c2 =? 168)%N.

Definition is_u2029 (c0 c1 c2 : ascii) : bool :=
  (code c0 =? 226)%N && (code c1 =? 128)%N && (code c2 =? 169)%N.

(** The text between the quotes of an encoded string: the loop of
    [encodeState.string].  A byte that starts no valid UTF-8 sequence
    becomes the escape of U+FFFD. *)
Fixpoint quote_body (s : string) : string :=
  match s with
  | EmptyString => ""
  | String c s' =>
      if is_ascii7 c then escape_ascii c +:+ quote_body s'
      else
        let bad := "\ufffd" +:+ quote_body s' in
        match s' with
        | String c1 s1 =>
            if valid2 c c1 then String c (String c1 (quote_body s1))
            else
              match s1 with
              | String c2 s2 =>
                  if valid3 c c1 c2 then
                    (if is_u2028 c c1 c2 then "\u2028"
                     else if is_u2029 c c1 c2 then "\u2029"
                     else String c (String c1 (String c2 "")))
                    +:+ quote_body s2
                  else
                    match s2 with
                    | String c3 s3 =>
                        if valid4 c c1 c2 c3
                        then String c (String c1 (String c2 (String c3 (quote_body s3))))
                        else bad
                    | EmptyString => bad
                    end
              | EmptyString => bad
              end
        | EmptyString => bad
        end
  end.

Definition quote (s : string) : string :=
  String dquote (quote_body s +:+ String dquote "").

(** [strconv.FormatInt n 10] *)
Definition itoa (n : Z) : string := NilZero.string_of_int (Z.to_int n).

Definition join_comma (a b : string) : string := a +:+ "," +:+ b.

(** The encoder proper.  [inl] carries the error of the first value
    that cannot be encoded. *)
Fixpoint encode (v : value) : error + string :=
  match v with
  | VNil => inr "null"
  | VBool b => inr (if b then "true" else "false")
  | VInt n => inr (itoa n)
  | VString s => inr (quote s)
  | VSlice l =>
      match
        (fix elems (l : list value) : error + string :=
           match l with
           | [] => inr ""
           | x :: l' =>
               match encode x with
               | inl e => inl e
               | inr sx =>
                   match l' with
                   | [] => inr sx
                   | _ :: _ =>
                       match elems l' with
                       | inl e => inl e
                       | inr sl => inr (join_comma sx sl)
                       end
                   end
               end
           end) l
      with
      | inl e => inl e
      | inr body => inr ("[" +:+ body +:+ "]")
      end
  | VChan => inl (json_UnsupportedTypeError "chan int")
  end.

(** [json.Marshal] *)
Definition Marshal (v : value) : error + string := encode v.

(** *** Decoding: the syntax *)

(** A JSON text as the scanner sees it.  A number keeps its literal. *)
Inductive json :=
| JNull
| JBool (b : bool)
| JNumber (lit : string)
| JString (s : string)
| JArray (l : list json)
| JObject (l : list (string * json)).

Definition is_ws (c : ascii) : bool :=
  (code c =? 32)%N || (code c =? 9)%N || (code c =? 13)%N || (code c =? 10)%N.

Fixpoint skip_ws (s : string) : string :=
  match s with
  | String c s' => if is_ws c then skip_ws s' else s
  | EmptyString => s
  end.

(** [strip p s]: [s] without its prefix [p]. *)
Fixpoint strip (p s : string) {struct p} : option string :=
  match p, s with
  | EmptyString, _ => Some s
  | String x p', String y s' => if Ascii.eqb x y then strip p' s' else None
  | String _ _, EmptyString => None
  end.

Definition is_digit (c : ascii) : bool := between 48 57 c.

(** The longest run of digits at the head of [s], and what follows. *)
Fixpoint digits (s : string) : string * string :=
  match s with
  | String c s' =>
      if is_digit c then let '(d, r) := digits s' in (String c d, r)
      else ("", s)
  | EmptyString => ("", "")
  end.

(** The integer part of a number: a single [0], or digits that start
    with [1] to [9]. *)
Definition read_int (s : string) : option (string * string) :=
  match s with
  | String c s' =>
      if is_char "0" c then Some (String c "", s')
      else if is_digit c then let '(d, r) := digits s' in Some (String c d, r)
      else None
  | EmptyString => None
  end.

Definition read_frac (s : string) : option (string * string) :=
  match s with
  | String c s' =>
      if is_char "." c then
        match digits s' with
        | (EmptyString, _) => None
        | (d, r) => Some (String c d, r)
        end
      else Some ("", s)
  | EmptyString => Some ("", s)
  end.

Definition read_exp (s : string) : option (string * string) :=
  match s with
  | String c s' =>
      if is_char "e" c || is_char "E" c then
        let '(sign, s1) :=
          match s' with
          | String g s1 =>
              if is_char "+" g || is_char "-" g then (String g "", s1) else ("", s')
          | EmptyString => ("", s')
          end in
        match digits s1 with
        | (EmptyString, _) => None
        | (d, r) => Some (String c (sign +:+ d), r)
        end
      else Some ("", s)
  | EmptyString => Some ("", s)
  end.

(** A number literal at the head of [s]. *)
Definition read_number (s : string) : option (string * string) :=
  let '(sign, s0) :=
    match s with
    | String c s' => if is_char "-" c then (String c "", s') else ("", s)
    | EmptyString => ("", s)
    end in
  match read_int s0 with
  | None => None
  | Some (i, s1) =>
      match read_frac s1 with
      | None => None
      | Some (f, s2) =>
          match read_exp s2 with
          | None => None
          | Some (e, s3) => Some (sign +:+ i +:+ f +:+ e, s3)
          end
      end
  end.

Definition hexval (c : ascii) : option N :=
  if is_digit c then Some (code c - 48)%N
  else if between 97 102 c then Some (code c - 87)%N
  else if between 65 70 c then Some (code c - 55)%N
  else None.

(** [getu4]: the rune of four hexadecimal digits. *)
Definition hex4 (h1 h2 h3 h4 : ascii) : option N :=
  match hexval h1, hexval h2, hexval h3, hexval h4 with
  | Some a, Some b, Some c, Some d => Some (((a * 16 + b) * 16 + c) * 16 + d)%N
  | _, _, _, _ => None
  end.

Definition is_high_surrogate (r : N) : bool := ((55296 <=? r) && (r <? 56320))%N.
Definition is_low_surrogate (r : N) : bool := ((56320 <=? r) && (r <? 57344))%N.
Definition is_surrogate (r : N) : bool := ((55296 <=? r) && (r <? 57344))%N.

(** [utf16.DecodeRune] of a valid pair. *)
Definition pair_rune (hi lo : N) : N :=
  ((hi - 55296) * 1024 + (lo - 56320) + 65536)%N.

Definition simple_escape (c : ascii) : option ascii :=
  if is_dquote c || is_char "\" c || is_char "/" c then Some c
  else if is_char "b" c then Some (byte 8)
  else if is_char "f" c then Some (byte 12)
  else if is_char "n" c then Some (byte 10)
  else if is_char "r" c then Some (byte 13)
  else if is_char "t" c then Some (byte 9)
  else None.

Definition prepend (x : string) (r : option (string * string))
    : option (string * string) :=
  match r with
  | Some (t, rest) => Some (x +:+ t, rest)
  | None => None
  end.

(** A string literal after its opening quote: the decoded text and what
    follows the closing quote.  Escapes are resolved as [unquote] does:
    an escaped surrogate that is not half of a valid pair and a byte that
    starts no valid UTF-8 sequence become U+FFFD. *)
Fixpoint read_string (s : string) : option (string * string) :=
  match s with
  | EmptyString => None
  | String c s' =>
      if is_dquote c then Some ("", s')
      else if is_char "\" c then
        match s' with
        | String e s1 =>
            if is_char "u" e then
              match s1 with
              | String h1 (String h2 (String h3 (String h4 s5))) =>
                  match hex4 h1 h2 h3 h4 with
                  | None => None
                  | Some r =>
                      if is_surrogate r then
                        match s5 with
                        | String b (String u (String k1 (String k2
                            (String k3 (String k4 s11))))) =>
                            match hex4 k1 k2 k3 k4 with
                            | Some r2 =>
                                if is_char "\" b && is_char "u" u
                                   && is_high_surrogate r && is_low_surrogate r2
                                then prepend (encode_rune (pair_rune r r2))
                                       (read_string s11)
                                else prepend replacement (read_string s5)
                            | None => prepend replacement (read_string s5)
                            end
                        | _ => prepend replacement (read_string s5)
                        end
                      else prepend (encode_rune r) (read_string s5)
                  end
              | _ => None
              end
            else
              match simple_escape e with
              | Some x => prepend (String x "") (read_string s1)
              | None => None
              end
        | EmptyString => None
        end
      else if (code c <? 32)%N then None
      else if is_ascii7 c then prepend (String c "") (read_string s')
      else
        let bad := prepend replacement (read_string s') in
        match s' with
        | String c1 s1 =>
            if valid2 c c1 then prepend (String c (String c1 "")) (read_string s1)
            else
              match s1 with
              | String c2 s2 =>
                  if valid3 c c1 c2
                  then prepend (String c (String c1 (String c2 ""))) (read_string s2)
                  else
                    match s2 with
                    | String c3 s3 =>
                        if valid4 c c1 c2 c3
                        then prepend (String c (String c1 (String c2 (String c3 ""))))
                               (read_string s3)
                        else bad
                    | EmptyString => bad
                    end
              | EmptyString => bad
              end
        | EmptyString => bad
        end
  end.

(** One value at the head of [s].  [fuel] bounds the depth of the
    recursion; every call works on a shorter text than its caller, so
    the length of the text is enough. *)
Fixpoint parse_value (fuel : nat) (s : string) {struct fuel}
    : option (json * string) :=
  match fuel with
  | O => None
  | S fuel' =>
      match s with
      | EmptyString => None
      | String c s' =>
          if is_char "n" c then option_map (pair JNull) (strip "ull" s')
          else if is_char "t" c then option_map (pair (JBool true)) (strip "rue" s')
          else if is_char "f" c then option_map (pair (JBool false)) (strip "alse" s')
          else if is_dquote c then
            match read_string s' with
            | Some (t, r) => Some (JString t, r)
            | None => None
            end
          else if is_char "[" c then
            match skip_ws s' with
            | String c1 r1 =>
                if is_char "]" c1 then Some (JArray [], r1)
                else
                  match parse_elems fuel' (skip_ws s') with
                  | Some (l, r) => Some (JArray l, r)
                  | None => None
                  end
            | EmptyString => None
            end
          else if is_char "{" c then
            match skip_ws s' with
            | String c1 r1 =>
                if is_char "}" c1 then Some (JObject [], r1)
                else
                  match parse_members fuel' (skip_ws s') with
                  | Some (l, r) => Some (JObject l, r)
                  | None => None
                  end
            | EmptyString => None
            end
          else if is_char "-" c || is_digit c then
            match read_number s with
            | Some (lit, r) => Some (JNumber lit, r)
            | None => None
            end
          else None
      end
  end

(** The elements of an array after [[]: a value, then [,] and more
    elements, or the closing bracket. *)
with parse_elems (fuel : nat) (s : string) {struct fuel}
    : option (list json * string) :=
  match fuel with
  | O => None
  | S fuel' =>
      match parse_value fuel' s with
      | None => None
      | Some (v, r) =>
          match skip_ws r with
          | String c r' =>
              if is_char "," c then
                match parse_elems fuel' (skip_ws r') with
                | Some (vs, r'') => Some (v :: vs, r'')
                | None => None
                end
              else if is_char "]" c then Some ([v], r')
              else None
          | EmptyString => None
          end
      end
  end

(** The members of an object: a key, a colon, a value, then [,] and
    more members, or the closing brace. *)
with parse_members (fuel : nat) (s : string) {struct fuel}
    : option (list (string * json) * string) :=
  match fuel with
  | O => None
  | S fuel' =>
      match s with
      | String q s' =>
          if is_dquote q then
            match read_string s' with
            | None => None
            | Some (key, r0) =>
                match skip_ws r0 with
                | String c0 r1 =>
                    if is_char ":" c0 then
                      match parse_value fuel' (skip_ws r1) with
                      | None => None
                      | Some (v, r) =>
                          match skip_ws r with
                          | String c r' =>
                              if is_char "," c then
                                match parse_members fuel' (skip_ws r') with
                                | Some (ms, r'') => Some ((key, v) :: ms, r'')
                                | None => None
                                end
                              else if is_char "}" c then Some ([(key, v)], r')
                              else None
                          | EmptyString => None
                          end
                      end
                    else None
                | EmptyString => None
                end
            end
          else None
      | EmptyString => None
      end
  end.

(** A whole text: one value, with white space around it and nothing
    else ([checkValid]). *)
Definition parse (data : string) : option json :=
  match parse_value (S (String.length data)) (skip_ws data) with
  | Some (j, r) =>
      match skip_ws r with
      | EmptyString => Some j
      | String _ _ => None
      end
  | None => None
  end.

(** *** Decoding: storing into a Go value *)

Definition has_char (p : ascii -> bool) (s : string) : bool := negb (Str.all (fun c => negb (p c)) s).

(** [strconv.ParseInt lit 10 64] on a number literal. *)
Definition parse_int64 (lit : string) : option Z :=
  if has_char (fun c => is_char "." c || is_char "e" c || is_char "E" c) lit
  then None
  else
    match NilZero.int_of_string lit with
    | Some d =>
        let n := Z.of_int d in
        if ((- 2 ^ 63 <=? n) && (n <? 2 ^ 63))%Z then Some n else None
    | None => None
    end.

Definition kind_name (j : json) : string :=
  match j with
  | JNull => "null"
  | JBool _ => "bool"
  | JNumber lit => "number " +:+ lit
  | JString _ => "string"
  | JArray _ => "array"
  | JObject _ => "object"
  end.

Definition type_name (t : type) : string :=
  match t with
  | TBool => "bool"
  | TInt => "int"
  | TString => "string"
  | TSlice _ => "slice"
  | TChan => "chan int"
  end.

(** The elements a slice holds; a slice has no capacity beyond them. *)
Definition elements (v : value) : list value :=
  match v with
  | VSlice vs => vs
  | _ => []
  end.

(** [store t j cur]: the value of type [t] that holds [cur] after
    [j] was decoded into it.  [null] resets a slice to nil and leaves
    every other value as it is.  The elements of an array are decoded
    one by one into the elements the slice holds already, and into
    zero values from the end of the slice on. *)
Fixpoint store (t : type) (j : json) (cur : value) {struct j} : error + value :=
  let mismatch := inl (json_UnmarshalTypeError (kind_name j) (type_name t)) in
  match j with
  | JNull =>
      match t with
      | TSlice _ => inr VNil
      | _ => inr cur
      end
  | JBool b =>
      match t with
      | TBool => inr (VBool b)
      | _ => mismatch
      end
  | JNumber lit =>
      match t with
      | TInt =>
          match parse_int64 lit with
          | Some n => inr (VInt n)
          | None => mismatch
          end
      | _ => mismatch
      end
  | JString s =>
      match t with
      | TString => inr (VString s)
      | _ => mismatch
      end
  | JArray l =>
      match t with
      | TSlice t' =>
          match
            (fix elems (l : list json) (old : list value)
                 : error + list value :=
               match l with
               | [] => inr []
               | x :: l' =>
                   match store t' x (hd (zero t') old) with
                   | inl e => inl e
                   | inr v =>
                       match elems l' (tl old) with
                       | inl e => inl e
                       | inr vs => inr (v :: vs)
                       end
                   end
               end) l (elements cur)
          with
          | inl e => inl e
          | inr vs => inr (VSlice vs)
          end
      | _ => mismatch
      end
  | JObject _ => mismatch
  end.

(** [json.Unmarshal data &cur], for [cur] of type [t]. *)
Definition Unmarshal (data : string) (t : type) (cur : value) : error + value :=
  match parse data with
  | None => inl (json_SyntaxError "invalid character")
  | Some j => store t j cur
  end.

(** *** Values the codec carries faithfully *)

Definition int64 (n : Z) : bool := ((- 2 ^ 63 <=? n) && (n <? 2 ^ 63))%Z.

(** [utf8.ValidString] *)
Fixpoint valid_utf8 (s : string) : bool :=
  match s with
  | EmptyString => true
  | String c s' =>
      if is_ascii7 c then valid_utf8 s'
      else
        match s' with
        | String c1 s1 =>
            if valid2 c c1 then valid_utf8 s1
            else
              match s1 with
              | String c2 s2 =>
                  if valid3 c c1 c2 then valid_utf8 s2
                  else
                    match s2 with
                    | String c3 s3 => valid4 c c1 c2 c3 && valid_utf8 s3
                    | EmptyString => false
                    end
              | EmptyString => false
              end
        | EmptyString => false
        end
  end.

(** [representable t v]: [v] is a value of type [t] whose integers are
    in the range of [int64] and whose strings are valid UTF-8. *)
Fixpoint representable (t : type) (v : value) {struct v} : bool :=
  match v, t with
  | VBool _, TBool => true
  | VInt n, TInt => int64 n
  | VString s, TString => valid_utf8 s
  | VNil, TSlice _ => true
  | VSlice l, TSlice t' => forallb (representable t') l
  | _, _ => false
  end.

Fixpoint commas (l : list string) : string :=
  match l with
  | [] => ""
  | x :: l' =>
      match l' with
      | [] => x
      | _ :: _ => join_comma x (commas l')
      end
  end.

(** The JSON text of a representable value. *)
Fixpoint text_of (v : value) : string :=
  match v with
  | VNil => "null"
  | VBool b => if b then "true" else "false"
  | VInt n => itoa n
  | VString s => quote s
  | VSlice l => "[" +:+ commas (map text_of l) +:+ "]"
  | VChan => ""
  end.

(** The syntax tree of that text. *)
Fixpoint tree_of (v : value) : json :=
  match v with
  | VNil => JNull
  | VBool b => JBool b
  | VInt n => JNumber (itoa n)
  | VString s => JString s
  | VSlice l => JArray (map tree_of l)
  | VChan => JNull
  end.

(** What may follow a number: nothing that would continue it. *)
Definition stops (rest : string) : bool :=
  match rest with
  | EmptyString => true
  | String c _ =>
      negb (is_digit c || is_char "." c || is_char "e" c || is_char "E" c)
  end.

(** Decimal digits without a superfluous leading zero. *)
Definition normal (d : Decimal.uint) : bool :=
  match d with
  | Decimal.Nil => false
  | Decimal.D0 Decimal.Nil => true
  | Decimal.D0 _ => false
  | _ => true
  end.

(** The characters the text of a value starts with. *)
Definition value_start (c : ascii) : bool :=
  is_char "n" c || is_char "t" c || is_char "f" c || is_dquote c
  || is_char "[" c || is_char "-" c || is_digit c.

(** Fuel that is enough to parse the text of a value. *)
Fixpoint size (v : value) : nat :=
  match v with
  | VSlice l => S (list_sum (map (fun x => S (size x)) l))
  | _ => 1
  end.

Definition sizes (l : list value) : nat := list_sum (map (fun x => S (size x)) l).

Definition parses (v : value) : Prop :=
  forall t, representable t v = true ->
  forall fuel rest, size v <= fuel -> stops rest = true ->
  parse_value fuel (text_of v +:+ rest) = Some (tree_of v, rest).

End Json.

(** ** [gofig.Config]: the configuration store *)

Module Gofig.

(** A store of settings, seen through the scopes entered so far
    (innermost first). *)
Record Config := { store : gmap string string; scopes : list string }.

(** A scoped configuration looks a key up under its scope first and
    falls back to the key itself. *)
Fixpoint lookup (m : gmap string string) (ss : list string) (k : string)
    : option string :=
  match ss with
  | [] => m !! k
  | s :: ss' =>
      match lookup m ss' (s +:+ "." +:+ k) with
      | Some v => Some v
      | None => lookup m ss' k
      end
  end.

Definition Get (c : Config) (k : string) : option string :=
  lookup (store c) (scopes c) k.

Definition GetString (c : Config) (k : string) : string :=
  default "" (Get c k).

(** [strconv.ParseBool], with [false] for anything it rejects. *)
Definition parse_bool (v : string) : bool :=
  bool_decide (v ∈ ["1"; "t"; "T"; "TRUE"; "true"; "True"]).

Definition GetBool (c : Config) (k : string) : bool :=
  match Get c k with
  | Some v => parse_bool v
  | None => false
  end.

Definition Scope (c : Config) (s : string) : Config :=
  {| store := store c; scopes := s :: scopes c |}.

End Gofig.

(** ** The client *)

Module Client.
Import Json.

(** [tls.Config], as far as the client reads it. *)
Record TLSConfig := { ServerName : string; InsecureSkipVerify : bool }.

(** The libStorage context: its identifiers and, once it is done, the
    error [Err()] reports. *)
Record Context := {
  ids : gmap string string;
  Err : option ctx_error
}.

(** What reaches the logger. *)
Inductive log_entry :=
| LogDebug (fields : gmap string string) (msg : string)
| LogInfo (fields : gmap string string) (msg : string)
| LogWrite (text : string).      (* written to the logger's [Writer()] *)

(** A network connection ([net.Conn]), named by what it is connected
    to. *)
Record Conn := { network : string; address : string; secured : option TLSConfig }.

(** [http.Client] with the one field the client sets: the [Dial]
    function of its [http.Transport]. *)
Record HttpClient := {
  Transport_Dial : string -> string -> error + Conn
}.

(** [http.Request].  The body is the in-memory reader [encPayload]
    builds, given by its content; [None] is the nil body. *)
Record Request := {
  Method : string;
  URL : string;
  ReqBody : option string
}.

(** An [io.Reader] read to its end yields [content] and then stops with
    [io.EOF] ([fault = None]) or with an error.  A reader that has
    failed keeps failing with that error, as the body of an HTTP response
    does. *)
Record Reader := { content : string; fault : option error }.

(** [http.Response] *)
Record Response := {
  StatusCode : nat;
  Header : list (string * string);
  Body : Reader
}.

(** What [ctxhttp.Do] reports when it fails: the context's error once
    the context is done, otherwise the [*url.Error] of [http.Client.Do]. *)
Inductive do_error :=
| DoContext (e : ctx_error)
| DoURL (op url msg : string).

Definition error_of_do (e : do_error) : error :=
  match e with
  | DoContext c => context_Error c
  | DoURL op url msg => url_Error op url msg
  end.

(** The world around the client: the file system, the network, and the
    functions of other packages whose result the client only passes
    on. *)
Class Env := {
  (** [ioutil.ReadFile] *)
  ReadFile : string -> error + string;
  (** [utils.ParseTLSConfig], a function of the package [api/utils]:
      the TLS configuration, if any, and the fields to log *)
  ParseTLSConfig : Gofig.Config -> error + (option TLSConfig * gmap string string);
  (** [gotil.ParseAddress]: protocol and address *)
  ParseAddress : string -> error + (string * string);
  (** [context.Background] and the method [WithContextID] of a
      context, of the package [api/types/context]: the context that
      comes from [ctx] when the identifier [k] is given the value [v] *)
  Background : Context;
  WithContextID : forall (k v : string) (ctx : Context), Context;
  (** [net.Dial] and [tls.Dial] *)
  net_Dial : string -> string -> error + Conn;
  tls_Dial : string -> string -> TLSConfig -> error + Conn;
  (** [http.NewRequest]'s check of the method and the URL *)
  request_error : string -> string -> option error;
  (** [ctxhttp.Do] *)
  ctxhttp_Do : Context -> HttpClient -> Request -> do_error + Response;
  (** the wire text of a request or response whose body was read, or
      the error of writing it out ([httputil.DumpRequest],
      [httputil.DumpResponse]) *)
  request_dump : Request -> error + string;
  response_dump : Response -> error + string;
  (** [gotil.WriteIndented]: what it writes for a text *)
  WriteIndented : string -> string
}.

Record client := {
  config : Gofig.Config;
  httpClient : HttpClient;
  proto : string;
  laddr : string;
  tlsConfig : option TLSConfig;
  logRequests : bool;
  logResponses : bool;
  ctx : Context
}.

(** *** Effects: log output and errors

    A computation yields what it logged, and an error or a result.
    What was logged before an error stays logged. *)
Definition Eff (A : Type) : Type := list log_entry * (error + A).

Definition ret {A} (a : A) : Eff A := ([], inr a).

Definition bind {A B} (m : Eff A) (k : A -> Eff B) : Eff B :=
  match m with
  | (l, inl e) => (l, inl e)
  | (l, inr a) => let '(l', r) := k a in (l ++ l', r)
  end.

Definition tell (l : list log_entry) : Eff unit := (l, inr tt).

(** A call that only fails or returns. *)
Definition lift {A} (r : error + A) : Eff A := ([], r).

Notation "'let*' x ':=' m 'in' k" := (bind m (fun x => k))
  (at level 10, x name, m at level 100, k at level 200).

Definition output {A} (m : Eff A) : list log_entry := fst m.
Definition outcome {A} (m : Eff A) : error + A := snd m.

(** *** Replies

    The [reply] of an exchange is a pointer to a value of some Go type
    [R].  It is given by what [json.Unmarshal] does with it for a
    text: the error, or the value the pointer holds afterwards. *)
Definition Reply (R : Type) : Type := string -> error + R.

(** The pointer to a value [cur] of the type [t]. *)
Definition ptr (t : type) (cur : value) : Reply value :=
  fun data => Unmarshal data t cur.

Section WithEnv.
Context {E : Env}.

(** *** [Dial]

    [ctx0] is [None] for the nil context.  The configuration is taken
    to be present: [Dial] calls [config.GetBool] first of all. *)

Definition Dial (ctx0 : option Context) (config : Gofig.Config)
    : list log_entry * (option client * option error) :=
  let logRequests :=
    Gofig.GetBool config "libstorage.client.http.logging.logrequest" in
  let logResponses :=
    Gofig.GetBool config "libstorage.client.http.logging.logresponse" in
  let logFields : gmap string string := ∅ in
  let host := Gofig.GetString config "libstorage.host" in
  if String.eqb host "" then
    ([], (None, Some (goof_Error "libstorage.host is required")))
  else
    match ParseTLSConfig (Gofig.Scope config "libstorage.client") with
    | inl err => ([], (None, Some err))
    | inr (tlsConfig, tlsFields) =>
        let logFields := tlsFields ∪ logFields in
        match ParseAddress host with
        | inl err => ([], (None, Some err))
        | inr (cProto, cLaddr) =>
            let '(l1, ctx1) :=
              match ctx0 with
              | None =>
                  ([LogDebug ∅ "created empty context for client"], Background)
              | Some c => ([], c)
              end in
            let ctx2 := WithContextID "host" host ctx1 in
            let hc := {|
              Transport_Dial := fun (proto addr : string) =>
                match tlsConfig with
                | None => net_Dial cProto cLaddr
                | Some cfg => tls_Dial cProto cLaddr cfg
                end |} in
            (l1 ++ [LogInfo logFields "configured client"],
             (Some {| config := config; httpClient := hc;
                      proto := cProto; laddr := cLaddr;
                      tlsConfig := tlsConfig;
                      logRequests := logRequests;
                      logResponses := logResponses;
                      ctx := ctx2 |},
              None))
        end
    end.

(** *** The codec *)

(** [encPayload]: no reader for the nil payload, otherwise a reader
    over the encoding. *)
Definition encPayload (payload : option value) : error + option string :=
  match payload with
  | None => inr None
  | Some v =>
      match Marshal v with
      | inl err => inl err
      | inr buf => inr (Some buf)
      end
  end.

(** [ioutil.ReadAll] *)
Definition ReadAll (r : Reader) : error + string :=
  match fault r with
  | Some e => inl e
  | None => inr (content r)
  end.

(** [decRes]: the body is read to its end and decoded into
    [reply]. *)
Definition decRes {R} (body : Reader) (reply : Reply R) : error + R :=
  match ReadAll body with
  | inl err => inl err
  | inr buf => reply buf
  end.

(** *** Diagnostic logging *)

Definition nl : string := String (ascii_of_N 10) "".

Definition banner (title : string) : list log_entry :=
  [LogWrite "    -------------------------- ";
   LogWrite title;
   LogWrite (" -------------------------" +:+ nl)].

(** [httputil.DumpRequest req true].  The body of a request is read
    from memory, and the request gets a reader over the same bytes
    back. *)
Definition DumpRequest (req : Request) : Request * (error + string) :=
  (req, request_dump req).

(** [httputil.DumpResponse res true].  The body is read to its end
    first.  If that fails the response is left with the reader that
    failed; otherwise it gets a reader over the bytes that were
    read. *)
Definition DumpResponse (res : Response) : Response * (error + string) :=
  match fault (Body res) with
  | Some e =>
      ({| StatusCode := StatusCode res; Header := Header res;
          Body := {| content := ""; fault := Some e |} |},
       inl e)
  | None =>
      ({| StatusCode := StatusCode res; Header := Header res;
          Body := {| content := content (Body res); fault := None |} |},
       response_dump res)
  end.

Definition logRequest (c : client) (req : Request) : list log_entry * Request :=
  if negb (logRequests c) then ([], req)
  else
    let head := LogWrite nl :: banner "HTTP REQUEST (CLIENT)" in
    match DumpRequest req with
    | (req', inl _) => (head, req')
    | (req', inr buf) =>
        (head ++ [LogWrite (WriteIndented buf); LogWrite nl], req')
    end.

Definition logResponse (c : client) (res : Response)
    : list log_entry * Response :=
  if negb (logResponses c) then ([], res)
  else
    let head := LogWrite nl :: banner "HTTP RESPONSE (CLIENT)" in
    match DumpResponse res with
    | (res', inl _) => (head, res')
    | (res', inr buf) =>
        let bw := WriteIndented buf in
        (head ++ map (fun l => LogWrite (l +:+ nl)) (Bufio.scan bw), res')
    end.

(** *** The dispatcher *)

(** The host of the request URL. *)
Definition request_host (c : client) : string :=
  let host := laddr c in
  let host := if String.eqb (proto c) "unix" then "libstorage-server" else host in
  match tlsConfig c with
  | Some cfg => if negb (String.eqb (ServerName cfg) "") then ServerName cfg else host
  | None => host
  end.

(** [http.NewRequest] *)
Definition NewRequest (method url : string) (body : option string)
    : error + Request :=
  match request_error method url with
  | Some err => inl err
  | None => inr {| Method := method; URL := url; ReqBody := body |}
  end.

(** [httpDo].  The result is the value [reply] points to after the
    exchange. *)
Definition httpDo {R} (c : client) (method path : string)
    (payload : option value) (reply : Reply R) : Eff R :=
  let* reqBody := lift (encPayload payload) in
  let host := request_host c in
  let url := "http://" +:+ host +:+ path in
  let* _ := tell [LogDebug {[ "url" := url ]} "built request url"] in
  let* req := lift (NewRequest method url reqBody) in
  let* req := (let '(l, req') := logRequest c req in (l, inr req')) in
  let* res := lift (match ctxhttp_Do (ctx c) (httpClient c) req with
                    | inl e => inl (error_of_do e)
                    | inr res => inr res
                    end) in
  let* res := (let '(l, res') := logResponse c res in (l, inr res')) in
  lift (decRes (Body res) reply).

Definition httpGet {R} (c : client) (path : string) (reply : Reply R)
    : Eff R :=
  httpDo c "GET" path None reply.

Definition httpPost {R} (c : client) (path : string)
    (payload : option value) (reply : Reply R) : Eff R :=
  httpDo c "POST" path payload reply.

Definition httpDelete {R} (c : client) (path : string) (reply : Reply R)
    : Eff R :=
  httpDo c "DELETE" path None reply.

(** *** The public operations *)

(** [httptypes.RootResponse], which [Root] returns as [[]string]. *)
Definition RootResponse : type := TSlice TString.

Definition Root (c : client) : list log_entry * (value * option error) :=
  let reply := VSlice [] in
  match httpGet c "/" (ptr RootResponse reply) with
  | (l, inl err) => (l, (VNil, Some err))
  | (l, inr reply) => (l, (reply, None))
  end.

(** [ServiceVolumeMap] is the type [httptypes.ServiceVolumeMap], a
    map whose declaration is in another package; [nil] is its nil
    value and [reply] the pointer to its empty literal. *)
Definition Volumes {ServiceVolumeMap : Type} (nil : ServiceVolumeMap)
    (reply : Reply ServiceVolumeMap) (c : client)
    : list log_entry * (ServiceVolumeMap * option error) :=
  match httpGet c "/volumes" reply with
  | (l, inl err) => (l, (nil, Some err))
  | (l, inr reply) => (l, (reply, None))
  end.

(** *** [getLocalDevices] *)

(** The pattern [fmt.Sprintf] builds. *)
Definition device_pattern (prefix : string) : string :=
  "^.+?\s(" +:+ prefix +:+ "\w+)$".

(** One turn of the loop: the name to append for line [l], if any. *)
Definition device_of_line (rx : Regexp.Regexp) (l : string) : option string :=
  match Regexp.FindStringSubmatch rx l with
  | [] => None
  | m => Some ("/dev/" +:+ nth 1 m "")
  end.

(** [regexp.MustCompile] is called once the file was read.  [None]
    is a run that is not modelled: the pattern has no program in this
    model (see [Regexp.parse]). *)
Definition getLocalDevices (c : client) (prefix : string)
    : option (option (list string) * option error) :=
  let path := Gofig.GetString (config c) "libstorage.client.localdevicesfile" in
  match ReadFile path with
  | inl err => Some (None, Some err)
  | inr buf =>
      match Regexp.MustCompile (device_pattern prefix) with
      | None => None
      | Some rx =>
          Some (Some (omap (device_of_line rx) (Bufio.scan buf)), None)
      end
  end.

(** The request [httpDo] hands to [ctxhttp.Do]. *)
Definition sent (c : client) (method path : string) (body : option string)
    : Request :=
  {| Method := method;
     URL := "http://" +:+ request_host c +:+ path;
     ReqBody := body |}.

End WithEnv.

(** The client [c] with other logging flags. *)
Definition with_logging (lreq lres : bool) (c : client) : client :=
  {| config := config c; httpClient := httpClient c;
     proto := proto c; laddr := laddr c; tlsConfig := tlsConfig c;
     logRequests := lreq; logResponses := lres; ctx := ctx c |}.

(** The environment [E] with other functions behind the wire dumps. *)
Definition with_dumps (rd : Request -> error + string)
    (sd : Response -> error + string) (wi : string -> string) (E : Env) : Env :=
  {| ReadFile := @ReadFile E; ParseTLSConfig := @ParseTLSConfig E;
     ParseAddress := @ParseAddress E;
     Background := @Background E; WithContextID := @WithContextID E;
     net_Dial := @net_Dial E; tls_Dial := @tls_Dial E;
     request_error := @request_error E; ctxhttp_Do := @ctxhttp_Do E;
     request_dump := rd; response_dump := sd; WriteIndented := wi |}.

End Client.

(** ** Concrete settings, used to run the definitions *)

Module Examples.
Import Json Client.

Definition q : string := String Str.dquote "".

(** The device table of the specification's scenario, with the device
    name first, and the same table with the name last. *)
Definition table_name_first : string :=
  "sda 8:0 disk" +:+ nl +:+ "xvdb 202:16 disk" +:+ nl +:+ "no-match-line" +:+ nl.

Definition table_name_last : string :=
  "8:0 disk sda" +:+ nl +:+ "202:16 disk xvdb" +:+ nl +:+ "no-match-line" +:+ nl.

Definition files (path : string) : error + string :=
  if String.eqb path "/etc/name-first" then inr table_name_first
  else if String.eqb path "/etc/name-last" then inr table_name_last
  else inl (os_PathError "open" path "no such file or directory").

(** Addresses of the forms [tcp://host:port] and [unix:///path]. *)
Definition parse_address (addr : string) : error + (string * string) :=
  match strip "tcp://" addr, strip "unix://" addr with
  | Some a, _ => if String.eqb a "" then inl (goof_Error "invalid address") else inr ("tcp", a)
  | None, Some a => if String.eqb a "" then inl (goof_Error "invalid address") else inr ("unix", a)
  | None, None => inl (goof_Error "invalid address")
  end.

Definition root_json : string :=
  "[" +:+ q +:+ "volumes" +:+ q +:+ "," +:+ q +:+ "snapshots" +:+ q +:+ "]".

Definition answer (body : Reader) : Response :=
  {| StatusCode := 200; Header := [("Content-Type", "application/json")];
     Body := body |}.

(** A context without identifiers that is not done, and a context
    with one more identifier. *)
Definition background : Context := {| ids := ∅; Err := None |}.

Definition with_id (k v : string) (ctx : Context) : Context :=
  {| ids := <[k := v]> (ids ctx); Err := Err ctx |}.

(** An environment in which the TLS settings parse to [tls], every
    exchange ends as [exchange] says, and the wire dumps fail when
    [dumps] is [false]. *)
Definition env (tls : error + (option TLSConfig * gmap string string))
    (exchange : do_error + Response) (dumps : bool) : Env :=
  {| ReadFile := files;
     ParseTLSConfig := fun _ => tls;
     ParseAddress := parse_address;
     Background := background;
     WithContextID := with_id;
     net_Dial := fun p a => inr {| network := p; address := a; secured := None |};
     tls_Dial := fun p a cfg =>
       inr {| network := p; address := a; secured := Some cfg |};
     request_error := fun _ _ => None;
     ctxhttp_Do := fun _ _ _ => exchange;
     request_dump := fun req =>
       if dumps then inr (Method req +:+ " " +:+ URL req)
       else inl (errors_New "dump failed");
     response_dump := fun res =>
       if dumps then inr ("HTTP/1.1 200 OK" +:+ nl +:+ content (Body res))
       else inl (errors_New "dump failed");
     WriteIndented := fun text => "    " +:+ text |}.

Definition no_tls : error + (option TLSConfig * gmap string string) :=
  inr (None, ∅).

Definition tls_named (name : string)
    : error + (option TLSConfig * gmap string string) :=
  inr (Some {| ServerName := name; InsecureSkipVerify := false |},
       {[ "tls" := "true" ]}).

(** The server answers with the root resources. *)
Definition env_ok : Env := env no_tls (inr (answer {| content := root_json; fault := None |})) true.

(** The server answers with a text that is no JSON. *)
Definition env_garbage : Env :=
  env no_tls (inr (answer {| content := "not-json"; fault := None |})) true.

(** The answer arrives, but reading its body is cut short by the
    cancellation of the context. *)
Definition env_body_cancelled : Env :=
  env no_tls
    (inr (answer {| content := "[" +:+ q +:+ "vol";
                    fault := Some (context_Error Canceled) |})) true.

(** The context is cancelled during the round trip. *)
Definition env_cancelled : Env := env no_tls (inl (DoContext Canceled)) true.

(** The TLS settings name a certificate that cannot be read. *)
Definition env_bad_tls : Env :=
  env (inl (goof_Error "error reading certificate")) (inl (DoContext Canceled)) true.

(** The TLS settings carry a server name. *)
Definition env_tls : Env :=
  env (tls_named "storage.example.com")
    (inr (answer {| content := root_json; fault := None |})) true.

Definition settings (host file : string) : Gofig.Config :=
  {| Gofig.store :=
       {[ "libstorage.host" := host;
          "libstorage.client.localdevicesfile" := file;
          "libstorage.client.http.logging.logrequest" := "true";
          "libstorage.client.http.logging.logresponse" := "true" ]};
     Gofig.scopes := [] |}.

(** A client as [Dial] builds it for [proto], [laddr] and [tls]. *)
Definition a_client (E : Env) (file proto laddr : string)
    (tls : option TLSConfig) : client :=
  {| config := settings (proto +:+ "://" +:+ laddr) file;
     httpClient := {|
       Transport_Dial := fun _ _ =>
         match tls with
         | None => @net_Dial E proto laddr
         | Some cfg => @tls_Dial E proto laddr cfg
         end |};
     proto := proto; laddr := laddr; tlsConfig := tls;
     logRequests := true; logResponses := true;
     ctx := @WithContextID E "host" (proto +:+ "://" +:+ laddr) (@Background E) |}.

Definition tcp_client (E : Env) (file : string) : client :=
  a_client E file "tcp" "127.0.0.1:7979" None.

(** A string that is no valid UTF-8: the single byte 0xFF. *)
Definition bad_utf8 : value := VString (String (ascii_of_N 255) "").

(** A payload of type [[][]string]. *)
Definition names : value :=
  VSlice [VSlice [VString "vol-1"; VString ("a<b" +:+ q +:+ nl);
                  VString (String (ascii_of_N 195) (String (ascii_of_N 169) "")
                           +:+ String (ascii_of_N 226) (String (ascii_of_N 128)
                                 (String (ascii_of_N 168) "")))];
          VNil; VSlice []].

End Examples.

(** ** Texts made of lines *)

Module Text.

Definition lf : string := String (ascii_of_N 10) "".
Definition crlf : string := String (ascii_of_N 13) lf.

(** The lines [ls], each followed by the line ending [eol]. *)
Fixpoint unlines (eol : string) (ls : list string) : string :=
  match ls with
  | [] => ""
  | l :: ls' => l +:+ eol +:+ unlines eol ls'
  end.

(** A text that is empty or ends with a newline: its last line is
    complete. *)
Fixpoint terminated (s : string) : bool :=
  match s with
  | EmptyString => true
  | String c EmptyString => Regexp.is_newline c
  | String _ s' => terminated s'
  end.

(** No newline in the text. *)
Definition one_line (s : string) : bool :=
  Str.all (fun c => negb (Regexp.is_newline c)) s.

(** The text that does not end with a carriage return. *)
Definition no_trailing_cr (s : string) : bool :=
  String.eqb (Bufio.dropCR s) s.

(** The line ending of a text file: a newline, after a carriage return
    in the DOS format. *)
Definition eol (dos : bool) : string := if dos then crlf else lf.

(** A line that the scanner gives back as it is when it is followed by
    [eol dos]: it has no newline, fits the buffer with its line ending,
    and does not end with a carriage return of its own unless the line
    ending brings one. *)
Definition scannable (dos : bool) (l : string) : bool :=
  one_line l
  && (if dos then Bufio.fits (String (ascii_of_N 13) l)
      else Bufio.fits l && no_trailing_cr l).

(** [n] times the character [c]. *)
Fixpoint replicate (n : nat) (c : ascii) : string :=
  match n with
  | O => ""
  | S n' => String c (replicate n' c)
  end.

End Text.

(** ** More example environments *)

Module Cases.
Import Json Client Examples.

(** The environment [E] with another file system. *)
Definition with_files (rf : string -> error + string) (E : Env) : Env :=
  {| ReadFile := rf; ParseTLSConfig := @ParseTLSConfig E;
     ParseAddress := @ParseAddress E;
     Background := @Background E; WithContextID := @WithContextID E;
     net_Dial := @net_Dial E; tls_Dial := @tls_Dial E;
     request_error := @request_error E; ctxhttp_Do := @ctxhttp_Do E;
     request_dump := @request_dump E; response_dump := @response_dump E;
     WriteIndented := @WriteIndented E |}.

(** A line of 65536 characters. *)
Definition long_line : string :=
  Text.replicate (N.to_nat Bufio.MaxScanTokenSize) "x".

(** A device table with a line that does not fit the scanner's buffer
    between two lines that name a device. *)
Definition table_long : string :=
  "8:0 disk sda" +:+ nl +:+ long_line +:+ (nl +:+ "202:16 disk xvdb" +:+ nl).

(** A device table in the DOS format whose last line is not ended, and
    in which a device is listed twice. *)
Definition dos_lines : list string :=
  ["202:16 disk xvdb"; "8:0 disk sda"; "# comment"; "202:16 disk xvdb"].

Definition table_dos : string :=
  Text.unlines (Text.eol true) dos_lines +:+ "202:32 disk xvdc".

Definition more_files (path : string) : error + string :=
  if String.eqb path "/etc/long" then inr table_long
  else if String.eqb path "/etc/dos" then inr table_dos
  else files path.

Definition env_files : Env := with_files more_files env_ok.

(** The environment [E] with another server behind [ctxhttp.Do]. *)
Definition with_server
    (srv : Context -> HttpClient -> Request -> do_error + Response)
    (E : Env) : Env :=
  {| ReadFile := @ReadFile E; ParseTLSConfig := @ParseTLSConfig E;
     ParseAddress := @ParseAddress E;
     Background := @Background E; WithContextID := @WithContextID E;
     net_Dial := @net_Dial E; tls_Dial := @tls_Dial E;
     request_error := @request_error E; ctxhttp_Do := srv;
     request_dump := @request_dump E; response_dump := @response_dump E;
     WriteIndented := @WriteIndented E |}.

(** The server answers with the root resources between white space, as
    a server does that ends its answer with a newline. *)
Definition root_padded : string := " " +:+ root_json +:+ nl.

Definition env_padded : Env :=
  with_server
    (fun _ _ _ => inr (answer {| content := root_padded; fault := None |}))
    env_ok.

Definition roots : value := VSlice [VString "volumes"; VString "snapshots"].

(** The server sends the body of the request back. *)
Definition echo (req : Request) : Response :=
  answer {| content := default "null" (ReqBody req); fault := None |}.

Definition env_echo : Env := with_server (fun _ _ req => inr (echo req)) env_ok.

(** The wire text of a response in the format of HTTP, with a carriage
    return and a newline after each line of the head, written to the
    log without indentation. *)
Definition env_wire : Env :=
  with_dumps (@request_dump env_ok)
    (fun res => inr ("HTTP/1.1 200 OK" +:+ Text.crlf +:+ Text.crlf
                     +:+ content (Body res)))
    (fun text => text) env_ok.

(** The server answers without content. *)
Definition no_content : Response :=
  {| StatusCode := 204; Header := [];
     Body := {| content := ""; fault := None |} |}.

Definition env_no_content : Env :=
  with_server (fun _ _ _ => inr no_content) env_ok.

(** The response [res] with another status code and header. *)
Definition relabel (code : nat) (hdr : list (string * string))
    (res : Response) : Response :=
  {| StatusCode := code; Header := hdr; Body := Body res |}.

(** The environment [E] in which every response is changed by [f]. *)
Definition answering (f : Response -> Response) (E : Env) : Env :=
  with_server
    (fun x h r =>
       match @ctxhttp_Do E x h r with
       | inl e => inl e
       | inr res => inr (f res)
       end) E.

(** Settings that name the host only. *)
Definition host_only (host : string) : Gofig.Config :=
  {| Gofig.store := {[ "libstorage.host" := host ]}; Gofig.scopes := [] |}.

(** A context that carries an identifier already and was cancelled. *)
Definition tagged : Context :=
  {| ids := {[ "tx" := "42" ]}; Err := Some Canceled |}.

End Cases.

(** * Part II: facts *)

(** In the proofs, a test on a character is evaluated only once the
    character is known. *)
#[local] Arguments Str.is_char x !c : simpl nomatch.
#[local] Arguments Str.is_ascii7 !c : simpl nomatch.
#[local] Arguments Regexp.is_meta !c : simpl nomatch.
#[local] Arguments Regexp.rep_of !c : simpl nomatch.
#[local] Arguments Regexp.escape !c : simpl nomatch.

(** Case analysis on a character: the 256 cases are closed terms. *)
Ltac by_cases c :=
  destruct c as [[] [] [] [] [] [] [] []]; vm_compute; try reflexivity; try discriminate.

(** * Facts about strings *)

Module StrFacts.
Import Str.

Lemma app_nil_r (s : string) : s +:+ "" = s.
Proof. induction s as [|c s IH]; simpl; [done | by rewrite IH]. Qed.

Lemma app_assoc (a b c : string) : (a +:+ b) +:+ c = a +:+ (b +:+ c).
Proof. induction a as [|x a IH]; simpl; [done | by rewrite IH]. Qed.

Lemma length_app (a b : string) :
  String.length (a +:+ b) = String.length a + String.length b.
Proof. induction a as [|x a IH]; simpl; [done | by rewrite IH]. Qed.

Lemma count_app p (a b : string) : count p (a +:+ b) = count p a + count p b.
Proof. induction a as [|x a IH]; simpl; [done | rewrite IH; lia]. Qed.

Lemma all_app p (a b : string) : all p (a +:+ b) = all p a && all p b.
Proof.
  induction a as [|x a IH]; simpl; [done |].
  by rewrite IH, andb_assoc.
Qed.

Lemma count_all_false p q (s : string) :
  (forall c, q c = true -> p c = false) -> all q s = true -> count p s = 0.
Proof.
  intros Hpq. induction s as [|c s IH]; simpl; [done |].
  intros [Hc Hs]%andb_true_iff. by rewrite (Hpq c Hc), IH.
Qed.

Lemma substring_app_l (a b : string) :
  String.substring 0 (String.length a) (a +:+ b) = a.
Proof. induction a as [|x a IH]; simpl; [by destruct b | by rewrite IH]. Qed.

Lemma has_prefix_app (p w : string) : has_prefix (p +:+ w) p = true.
Proof.
  induction p as [|x p IH]; simpl; [done |].
  by rewrite Ascii.eqb_refl, IH.
Qed.

End StrFacts.

(** * Facts about the regular expressions of [getLocalDevices] *)

Module RegexpFacts.
Import Str StrFacts Regexp.

Lemma space_not_word c : is_space c = true -> is_word c = false.
Proof.
  unfold is_space, is_word, is_digit, code.
  destruct c as [[] [] [] [] [] [] [] []]; vm_compute; congruence.
Qed.

Lemma parse_literal_char c s n f stk :
  literal c = true ->
  parse (String c s) n f stk = parse s n (push (RChar (CLit c)) f) stk.
Proof.
  unfold literal. intros [Hm Ha]%andb_true_iff.
  apply negb_true_iff in Hm.
  simpl. rewrite Hm, Ha. simpl.
  unfold is_meta in Hm.
  repeat (apply orb_false_elim in Hm as [Hm ?]).
  unfold rep_of.
  by repeat match goal with H : is_char _ c = false |- _ => rewrite H; clear H end.
Qed.

Lemma parse_literal p s n f stk :
  all literal p = true ->
  parse (p +:+ s) n f stk
  = parse s n (Frame (alts f) (rev (lits p) ++ items f)) stk.
Proof.
  revert f. induction p as [|c p IH]; intros f Hp.
  - by destruct f.
  - simpl in Hp. apply andb_true_iff in Hp as [Hc Hp].
    change (String c p +:+ s) with (String c (p +:+ s)).
    rewrite parse_literal_char by done. rewrite IH by done.
    unfold push; simpl. by rewrite <- List.app_assoc.
Qed.

Lemma compile_device_pattern p :
  all literal p = true ->
  MustCompile ("^.+?\s(" +:+ p +:+ "\w+)$")
  = Some {| prog := device_rx p; numSubexp := 1 |}.
Proof.
  intros Hp. unfold MustCompile.
  assert (Hhead : forall t,
    match t with String c _ => is_char "?" c = false | EmptyString => False end ->
    parse ("^.+?\s(" +:+ t) 0 empty_frame []
    = parse t 1 empty_frame
        [(1, Frame [] [RChar CSpace; RRep CAny Plus false; RBol])]).
  { intros [|c t] Ht; [done |].
    remember (String c t) as u eqn:Hu. simpl. subst u.
    lazy iota beta. by rewrite Ht. }
  assert (Htail : forall f stk,
    parse "\w+)$" 1 f [(1, stk)]
    = Some (close_frame
              (push REol (push (RGroup 1 (close_frame
                 (Frame (alts f) (RRep CWord Plus true :: items f)))) stk)), 1)).
  { intros f stk. reflexivity. }
  rewrite Hhead.
  - rewrite parse_literal by done. rewrite Htail.
    unfold device_rx, close_frame, push. simpl.
    by rewrite List.app_nil_r, rev_involutive.
  - destruct p as [|c p]; [done |].
    simpl in Hp. apply andb_true_iff in Hp as [Hc _].
    unfold literal in Hc. apply andb_true_iff in Hc as [Hm _].
    apply negb_true_iff in Hm. unfold is_meta in Hm.
    repeat (apply orb_false_elim in Hm as [Hm ?]). done.
Qed.

(** ** What the matcher accepts *)

Lemma run_concat rs k st : run (RConcat rs) k st = run_seq rs k st.
Proof. reflexivity. Qed.

Lemma run_group n r k st :
  run (RGroup n r) k st = run r (fun st' => k (set_cap n st st')) st.
Proof. reflexivity. Qed.

Lemma run_bol k st : pos st = 0 -> run RBol k st = k st.
Proof. intros H. simpl. by rewrite H. Qed.

Lemma step_inv cs k st r :
  step cs k st = Some r ->
  exists c s', rest st = String c s' /\ cset_mem cs c = true
               /\ k (MState (S (pos st)) s' (caps st)) = Some r.
Proof.
  unfold step. destruct (rest st) as [|c s']; [done |].
  destruct (cset_mem cs c) eqn:Hc; [| done]. eauto.
Qed.

Lemma star_inv cs g k s : forall p cp r,
  star cs g k p s cp = Some r ->
  exists a s', s = a +:+ s' /\ all (cset_mem cs) a = true
               /\ k (MState (p + String.length a) s' cp) = Some r.
Proof.
  induction s as [|c s IH]; intros p cp r H; simpl in H.
  - exists "", "". by rewrite Nat.add_0_r.
  - assert (Hstop : k (MState p (String c s) cp) = Some r ->
      exists a s', String c s = a +:+ s' /\ all (cset_mem cs) a = true
                   /\ k (MState (p + String.length a) s' cp) = Some r).
    { intros Hk. exists "", (String c s). by rewrite Nat.add_0_r. }
    destruct (cset_mem cs c) eqn:Hc; [| by apply Hstop].
    assert (Hmore : star cs g k (S p) s cp = Some r ->
      exists a s', String c s = a +:+ s' /\ all (cset_mem cs) a = true
                   /\ k (MState (p + String.length a) s' cp) = Some r).
    { intros Hs. apply IH in Hs as (a & s' & -> & Ha & Hk).
      exists (String c a), s'. simpl. rewrite Hc, Ha.
      by rewrite <- Nat.add_succ_comm. }
    unfold orelse in H. destruct g.
    + destruct (star cs true k (S p) s cp) eqn:Hs;
        [by apply Hmore | by apply Hstop].
    + destruct (k (MState p (String c s) cp)) eqn:Hk;
        [by apply Hstop | by apply Hmore].
Qed.

Lemma plus_inv cs g k st r :
  run (RRep cs Plus g) k st = Some r ->
  exists c a s', rest st = String c (a +:+ s')
    /\ all (cset_mem cs) (String c a) = true
    /\ k (MState (pos st + String.length (String c a)) s' (caps st)) = Some r.
Proof.
  simpl. intros (c & s1 & Hrest & Hc & H)%step_inv.
  unfold star_k in H. simpl in H.
  apply star_inv in H as (a & s' & -> & Ha & Hk).
  exists c, a, s'. simpl. rewrite Hc, Ha.
  by rewrite <- Nat.add_succ_comm.
Qed.

Lemma lits_inv p rs k : forall st r,
  run_seq (lits p ++ rs) k st = Some r ->
  exists s', rest st = p +:+ s'
    /\ run_seq rs k (MState (pos st + String.length p) s' (caps st)) = Some r.
Proof.
  induction p as [|c p IH]; intros st r H.
  - exists (rest st). simpl. rewrite Nat.add_0_r. by destruct st.
  - simpl in H. apply step_inv in H as (x & s1 & Hrest & Hx & H).
    apply Ascii.eqb_eq in Hx as ->.
    apply IH in H as (s' & Hs1 & H). simpl in Hs1, H. subst s1.
    exists s'. simpl. by rewrite <- Nat.add_succ_comm.
Qed.

Lemma substring_all (a : string) : String.substring 0 (String.length a) a = a.
Proof. rewrite <- (app_nil_r a) at 2. apply substring_app_l. Qed.

(** A match of the device pattern at the start of [l]: [l] is some
    text, a white space, and [p] with word characters up to the end;
    group 1 is [p] with these word characters. *)
Lemma device_rx_inv p l cp :
  run (RGroup 0 (device_rx p)) (fun st => Some (caps st)) (MState 0 l []) = Some cp ->
  exists a s w,
    l = a +:+ String s (p +:+ w)
    /\ a <> "" /\ all (cset_mem CAny) a = true
    /\ is_space s = true
    /\ w <> "" /\ all is_word w = true
    /\ cap_text 0 cp = l /\ cap_text 1 cp = p +:+ w.
Proof.
  unfold device_rx. rewrite run_group, run_concat. cbn [run_seq].
  rewrite run_bol by done.
  intros (c & a & l2 & Hl & Ha & H)%plus_inv. cbn [rest pos caps] in *.
  apply step_inv in H as (s & l3 & E & Hs & H).
  cbn [rest pos caps] in E, H. subst l2.
  rewrite run_group, run_concat in H.
  apply lits_inv in H as (l4 & E & H).
  cbn [rest pos caps run_seq] in E, H. subst l3.
  apply plus_inv in H as (w0 & w & l6 & E & Hw & H).
  cbn [rest pos caps] in E, H. subst l4.
  unfold set_cap in H. cbn [rest pos caps run] in H.
  destruct l6; [| done]. injection H as <-.
  exists (String c a), s, (String w0 w). subst l.
  rewrite app_nil_r. split_and!; try done; cbn [cap_text Nat.eqb];
    match goal with |- String.substring 0 ?n ?t = _ =>
      replace n with (String.length t); [apply substring_all |]
    end;
    cbn [String.length]; rewrite ?length_app; cbn [String.length];
    rewrite ?length_app; cbn [String.length]; lia.
Qed.

(** The device pattern is anchored: the search finds nothing at a later
    offset. *)
Lemma search_anchored rs s : forall n,
  n <> 0 -> search (RConcat (RBol :: rs)) n s = None.
Proof.
  induction s as [|c s IH]; intros n Hn; simpl;
    (destruct n; [done | simpl]); [done |].
  by apply IH.
Qed.

Lemma search_device_rx p l cp :
  search (device_rx p) 0 l = Some cp ->
  run (RGroup 0 (device_rx p)) (fun st => Some (caps st)) (MState 0 l []) = Some cp.
Proof.
  destruct l as [|c l]; unfold search; fold search.
  - by destruct (run _ _ _).
  - destruct (run _ _ _); [done |].
    unfold device_rx. by rewrite search_anchored.
Qed.

Lemma find_device_rx p l m :
  FindStringSubmatch {| prog := device_rx p; numSubexp := 1 |} l = m ->
  m = [] \/
  exists a s w,
    l = a +:+ String s (p +:+ w)
    /\ a <> "" /\ all (cset_mem CAny) a = true
    /\ is_space s = true
    /\ w <> "" /\ all is_word w = true
    /\ m = [l; p +:+ w].
Proof.
  unfold FindStringSubmatch. cbn [prog numSubexp].
  destruct (search (device_rx p) 0 l) as [cp|] eqn:Hs; intros <-; [right | by left].
  apply search_device_rx in Hs.
  destruct (device_rx_inv _ _ _ Hs)
    as (a & s & w & Hl & Ha & Hany & Hsp & Hw & Hword & Hcap0 & Hcap1).
  exists a, s, w. split_and!; try done.
  simpl. by rewrite Hcap0, Hcap1.
Qed.
End RegexpFacts.

Module JsonFacts.
Import Str Json.

(** ** Strings *)

Lemma byte_code c : byte (code c) = c.
Proof. apply ascii_N_embedding. Qed.

Lemma code_inj c n : (code c =? n)%N = true -> c = byte n.
Proof. intros H%N.eqb_eq. rewrite <- H. symmetry. apply byte_code. Qed.

Lemma html_safe_plain c :
  html_safe c = true ->
  is_dquote c = false /\ is_char "\" c = false
  /\ (code c <? 32)%N = false /\ is_ascii7 c = true.
Proof.
  unfold html_safe. intros [[H32 H7]%andb_true_iff Hn%negb_true_iff]%andb_true_iff.
  repeat (apply orb_false_elim in Hn as [Hn ?]).
  split_and!; try done.
  apply N.ltb_ge. by apply N.leb_le.
Qed.

Lemma read_plain c t :
  is_dquote c = false -> is_char "\" c = false ->
  (code c <? 32)%N = false -> is_ascii7 c = true ->
  read_string (String c t) = prepend (String c "") (read_string t).
Proof. intros H1 H2 H3 H4. cbn [read_string]. by rewrite H1, H2, H3, H4. Qed.

Lemma read_simple_escape e x t :
  is_char "u" e = false -> simple_escape e = Some x ->
  read_string (String "\" (String e t)) = prepend (String x "") (read_string t).
Proof.
  intros H1 H2. cbn [read_string].
  change (is_dquote "\") with false. change (is_char "\" "\") with true.
  cbv iota. by rewrite H1, H2.
Qed.

Lemma read_u00 h1 h2 r t :
  hex4 "0" "0" h1 h2 = Some r -> is_surrogate r = false ->
  read_string ("\u00" +:+ String h1 (String h2 t))
  = prepend (encode_rune r) (read_string t).
Proof.
  intros H1 H2. cbn [read_string String.append].
  change (is_dquote "\") with false. change (is_char "\" "\") with true.
  change (is_char "u" "u") with true.
  cbv iota. by rewrite H1, H2.
Qed.

Lemma hex4_escape c :
  hex4 "0" "0" (hex_digit (N.shiftr (code c) 4)) (hex_digit (N.land (code c) 15))
  = Some (code c).
Proof. by_cases c. Qed.

Lemma ascii_not_surrogate c : is_surrogate (code c) = false.
Proof. by_cases c. Qed.

Lemma encode_rune_ascii c : is_ascii7 c = true -> encode_rune (code c) = String c "".
Proof.
  unfold is_ascii7, encode_rune. intros ->. by rewrite byte_code.
Qed.

(** One ASCII character, encoded and read back. *)
Lemma read_escape_ascii c t :
  is_ascii7 c = true ->
  read_string (escape_ascii c +:+ t) = prepend (String c "") (read_string t).
Proof.
  intros H7. unfold escape_ascii.
  destruct (html_safe c) eqn:Hsafe.
  { apply html_safe_plain in Hsafe as (? & ? & ? & ?). by apply read_plain. }
  destruct (is_dquote c || is_char "\" c) eqn:Hq.
  { cbn [String.append]. apply read_simple_escape.
    - unfold is_dquote, is_char in Hq.
      apply orb_true_iff in Hq as [<-%Ascii.eqb_eq | <-%Ascii.eqb_eq]; reflexivity.
    - unfold simple_escape. by rewrite Hq. }
  destruct (code c =? 10)%N eqn:H10.
  { apply code_inj in H10 as ->. by apply read_simple_escape. }
  destruct (code c =? 13)%N eqn:H13.
  { apply code_inj in H13 as ->. by apply read_simple_escape. }
  destruct (code c =? 9)%N eqn:H9.
  { apply code_inj in H9 as ->. by apply read_simple_escape. }
  cbn [String.append].
  rewrite <- (encode_rune_ascii c H7).
  apply (read_u00 _ _ (code c) t); [apply hex4_escape | apply ascii_not_surrogate].
Qed.

(** A character that is not ASCII is no quote, no backslash and no
    control character. *)
Lemma non_ascii_facts c :
  is_ascii7 c = false ->
  is_dquote c = false /\ is_char "\" c = false /\ (code c <? 32)%N = false.
Proof.
  destruct c as [[] [] [] [] [] [] [] []]; vm_compute; intros H;
    first [discriminate H | by split_and!].
Qed.

Lemma read_seq2 c c1 t :
  is_ascii7 c = false -> valid2 c c1 = true ->
  read_string (String c (String c1 t))
  = prepend (String c (String c1 "")) (read_string t).
Proof.
  intros H7 H2. destruct (non_ascii_facts c H7) as (Hq & Hb & Hc).
  cbn [read_string]. by rewrite Hq, Hb, Hc, H7, H2.
Qed.

Lemma read_seq3 c c1 c2 t :
  is_ascii7 c = false -> valid2 c c1 = false -> valid3 c c1 c2 = true ->
  read_string (String c (String c1 (String c2 t)))
  = prepend (String c (String c1 (String c2 ""))) (read_string t).
Proof.
  intros H7 H2 H3. destruct (non_ascii_facts c H7) as (Hq & Hb & Hc).
  cbn [read_string]. by rewrite Hq, Hb, Hc, H7, H2, H3.
Qed.

Lemma read_seq4 c c1 c2 c3 t :
  is_ascii7 c = false -> valid2 c c1 = false -> valid3 c c1 c2 = false ->
  valid4 c c1 c2 c3 = true ->
  read_string (String c (String c1 (String c2 (String c3 t))))
  = prepend (String c (String c1 (String c2 (String c3 "")))) (read_string t).
Proof.
  intros H7 H2 H3 H4. destruct (non_ascii_facts c H7) as (Hq & Hb & Hc).
  cbn [read_string]. by rewrite Hq, Hb, Hc, H7, H2, H3, H4.
Qed.

(** The two line separators the encoder escapes are read back. *)
Lemma read_u2028 c c1 c2 t :
  is_u2028 c c1 c2 = true ->
  read_string ("\u2028" +:+ t)
  = prepend (String c (String c1 (String c2 ""))) (read_string t).
Proof.
  unfold is_u2028.
  intros [[->%code_inj ->%code_inj]%andb_true_iff ->%code_inj]%andb_true_iff.
  reflexivity.
Qed.

Lemma read_u2029 c c1 c2 t :
  is_u2029 c c1 c2 = true ->
  read_string ("\u2029" +:+ t)
  = prepend (String c (String c1 (String c2 ""))) (read_string t).
Proof.
  unfold is_u2029.
  intros [[->%code_inj ->%code_inj]%andb_true_iff ->%code_inj]%andb_true_iff.
  reflexivity.
Qed.

(** Valid UTF-8, encoded and read back. *)
Lemma read_quote_body : forall s rest,
  valid_utf8 s = true ->
  read_string (quote_body s +:+ String dquote rest) = Some (s, rest).
Proof.
  fix IH 1. intros [|c s'] rest Hv; [reflexivity |].
  cbn [valid_utf8 quote_body] in *.
  destruct (is_ascii7 c) eqn:H7.
  { rewrite StrFacts.app_assoc, read_escape_ascii by done.
    by rewrite (IH s' rest Hv). }
  destruct s' as [|c1 s1]; [discriminate Hv |].
  destruct (valid2 c c1) eqn:H2.
  { cbn [String.append]. rewrite read_seq2 by done.
    by rewrite (IH s1 rest Hv). }
  destruct s1 as [|c2 s2]; [discriminate Hv |].
  destruct (valid3 c c1 c2) eqn:H3.
  { rewrite StrFacts.app_assoc.
    destruct (is_u2028 c c1 c2) eqn:H28;
      [| destruct (is_u2029 c c1 c2) eqn:H29].
    - rewrite (read_u2028 c c1 c2) by done. by rewrite (IH s2 rest Hv).
    - rewrite (read_u2029 c c1 c2) by done. by rewrite (IH s2 rest Hv).
    - cbn [String.append]. rewrite read_seq3 by done.
      by rewrite (IH s2 rest Hv). }
  destruct s2 as [|c3 s3]; [discriminate Hv |].
  apply andb_true_iff in Hv as [H4 Hv]. rewrite H4.
  cbn [String.append]. rewrite read_seq4 by done.
  by rewrite (IH s3 rest Hv).
Qed.


(** ** Numbers *)

Lemma digits_uint d rest :
  stops rest = true ->
  digits (NilEmpty.string_of_uint d +:+ rest) = (NilEmpty.string_of_uint d, rest).
Proof.
  intros Hr. induction d; cbn [NilEmpty.string_of_uint String.append digits];
    try (change (is_digit _) with true; cbv iota; by rewrite IHd).
  destruct rest as [|c rest]; [done |]. cbn [digits].
  unfold stops in Hr. apply negb_true_iff in Hr.
  repeat (apply orb_false_elim in Hr as [Hr ?]). by rewrite Hr.
Qed.

Lemma read_int_uint d rest :
  normal d = true -> stops rest = true ->
  read_int (NilEmpty.string_of_uint d +:+ rest)
  = Some (NilEmpty.string_of_uint d, rest).
Proof.
  intros Hd Hr.
  destruct d as [|d|d|d|d|d|d|d|d|d|d]; try done;
    cbn [NilEmpty.string_of_uint String.append read_int];
    [by destruct d | ..];
    match goal with |- context [is_char "0" ?c] =>
      change (is_char "0" c) with false; change (is_digit c) with true
    end; cbv iota; by rewrite digits_uint.
Qed.

Lemma read_frac_stops rest : stops rest = true -> read_frac rest = Some ("", rest).
Proof.
  destruct rest as [|c rest]; [done |]. unfold stops, read_frac.
  intros Hr%negb_true_iff. repeat (apply orb_false_elim in Hr as [Hr ?]).
  by match goal with H : is_char "." c = false |- _ => rewrite H end.
Qed.

Lemma read_exp_stops rest : stops rest = true -> read_exp rest = Some ("", rest).
Proof.
  destruct rest as [|c rest]; [done |]. unfold stops, read_exp.
  intros Hr%negb_true_iff. repeat (apply orb_false_elim in Hr as [Hr ?]).
  by repeat match goal with H : is_char _ c = false |- _ => rewrite H; clear H end.
Qed.

(** The first character of digits is no minus sign. *)
Lemma uint_no_sign d rest :
  d <> Decimal.Nil ->
  exists c s, NilEmpty.string_of_uint d +:+ rest = String c s
              /\ is_char "-" c = false /\ is_digit c = true.
Proof. destruct d; [done | ..]; intros _; eexists _, _; by split_and!. Qed.

Lemma read_number_uint sign d rest :
  sign = "" \/ sign = "-" ->
  normal d = true -> stops rest = true ->
  read_number (sign +:+ NilEmpty.string_of_uint d +:+ rest)
  = Some (sign +:+ NilEmpty.string_of_uint d, rest).
Proof.
  intros Hs Hd Hr.
  assert (Hnil : d <> Decimal.Nil) by (by destruct d).
  unfold read_number. destruct Hs as [-> | ->]; cbn [String.append].
  - destruct (uint_no_sign d rest Hnil) as (c & s & E & Hc & _).
    rewrite E, Hc, <- E. rewrite read_int_uint, read_frac_stops, read_exp_stops by done.
    by rewrite !StrFacts.app_nil_r.
  - change (is_char "-" "-") with true. cbv iota.
    rewrite read_int_uint, read_frac_stops, read_exp_stops by done.
    cbn [String.append]. by rewrite !StrFacts.app_nil_r.
Qed.

(** [Pos.to_uint] writes no leading zero. *)
Lemma to_uint_normal p : normal (Pos.to_uint p) = true.
Proof.
  assert (Hn : Decimal.unorm (Pos.to_uint p) = Pos.to_uint p).
  { rewrite <- Unsigned.to_of, Unsigned.of_to. reflexivity. }
  pose proof (Unsigned.to_uint_nonnil p) as Hnil.
  destruct (Pos.to_uint p) as [|u|u|u|u|u|u|u|u|u|u] eqn:E; try done.
  assert (Hcase : u = Decimal.Nil \/ u <> Decimal.Nil) by (destruct u; auto).
  destruct Hcase as [-> | Hu]; [done | exfalso].
  rewrite unorm_D0 in Hn.
  pose proof (nb_digits_unorm u Hu) as Hlen.
  rewrite Hn in Hlen. simpl in Hlen. lia.
Qed.

Lemma itoa_shape n :
  exists sign d, itoa n = sign +:+ NilEmpty.string_of_uint d
    /\ (sign = "" \/ sign = "-") /\ normal d = true.
Proof.
  unfold itoa. destruct n as [|p|p]; simpl.
  - exists "", (Decimal.D0 Decimal.Nil). by split_and!; [| left |].
  - exists "", (Pos.to_uint p). pose proof (to_uint_normal p).
    split_and!; [| by left | done]. by destruct (Pos.to_uint p).
  - exists "-", (Pos.to_uint p). pose proof (to_uint_normal p).
    split_and!; [| by right | done]. by destruct (Pos.to_uint p).
Qed.

Lemma read_number_itoa n rest :
  stops rest = true -> read_number (itoa n +:+ rest) = Some (itoa n, rest).
Proof.
  intros Hr. destruct (itoa_shape n) as (sign & d & -> & Hs & Hd).
  rewrite StrFacts.app_assoc. by apply read_number_uint.
Qed.

Lemma uint_plain q d :
  (forall c, is_digit c = true -> q c = true) ->
  all q (NilEmpty.string_of_uint d) = true.
Proof.
  intros Hq. induction d; cbn [NilEmpty.string_of_uint all]; [done | ..];
    rewrite IHd, andb_true_r; by apply Hq.
Qed.

Lemma parse_int64_itoa n : int64 n = true -> parse_int64 (itoa n) = Some n.
Proof.
  intros Hn. unfold parse_int64, has_char.
  set (q := fun c => negb (is_char "." c || is_char "e" c || is_char "E" c)).
  assert (Hq : forall c, is_char "-" c || is_digit c = true -> q c = true).
  { intros c. unfold q. by_cases c. }
  assert (Hall : all q (itoa n) = true).
  { destruct (itoa_shape n) as (sign & d & -> & Hs & Hd).
    rewrite StrFacts.all_app, uint_plain.
    - by destruct Hs as [-> | ->].
    - intros c Hc. apply Hq. by rewrite Hc, orb_true_r. }
  rewrite Hall. cbn [negb].
  unfold itoa. rewrite NilZero.isi.
  - rewrite DecimalZ.of_to. fold (int64 n). by rewrite Hn.
  - destruct n; simpl; try done. intros [= H]. by apply (Unsigned.to_uint_nonnil p).
  - destruct n; simpl; try done. intros [= H]. by apply (Unsigned.to_uint_nonnil p).
Qed.

(** ** Values *)

(** Induction on values, with the hypothesis for the elements of a
    slice. *)
Lemma value_ind' (P : value -> Prop) :
  P VNil -> (forall b, P (VBool b)) -> (forall n, P (VInt n)) ->
  (forall s, P (VString s)) ->
  (forall l, Forall P l -> P (VSlice l)) ->
  P VChan ->
  forall v, P v.
Proof.
  intros HNil HBool HInt HString HSlice HChan.
  fix IH 1. intros [| b | n | s | l |];
    [exact HNil | apply HBool | apply HInt | apply HString | | exact HChan].
  apply HSlice. induction l as [|x l IHl]; constructor; [apply IH | exact IHl].
Qed.

Lemma encode_text v : forall t,
  representable t v = true -> encode v = inr (text_of v).
Proof.
  induction v as [| b | n | s | l IH |] using value_ind'; intros t Hr;
    try reflexivity; try (by destruct t).
  destruct t as [| | | t' |]; try done. cbn [representable] in Hr.
  cbn [encode text_of].
  match goal with |- match ?e with _ => _ end = _ =>
    assert (He : e = inr (commas (map text_of l))) end.
  { induction l as [|x l IHl]; [done |].
    apply Forall_cons in IH as [Hx Hl].
    cbn [forallb] in Hr. apply andb_true_iff in Hr as [Hrx Hrl].
    rewrite (Hx t' Hrx). cbn [map commas].
    destruct l as [|y l]; [done |].
    by rewrite (IHl Hl Hrl). }
  by rewrite He.
Qed.

(** ** Parsing the text of a value *)

Lemma value_start_facts c :
  value_start c = true -> is_ws c = false /\ is_char "]" c = false.
Proof.
  destruct c as [[] [] [] [] [] [] [] []]; vm_compute; intros H;
    first [discriminate H | by split].
Qed.

Lemma number_start_facts c :
  is_char "-" c || is_digit c = true ->
  value_start c = true
  /\ is_char "n" c = false /\ is_char "t" c = false /\ is_char "f" c = false
  /\ is_dquote c = false /\ is_char "[" c = false /\ is_char "{" c = false.
Proof.
  destruct c as [[] [] [] [] [] [] [] []]; vm_compute; intros H;
    first [discriminate H | by split_and!].
Qed.

Lemma itoa_head n :
  exists c s, itoa n = String c s /\ is_char "-" c || is_digit c = true.
Proof.
  destruct (itoa_shape n) as (sign & d & -> & [-> | ->] & Hd).
  - assert (Hnil : d <> Decimal.Nil) by (by destruct d).
    destruct (uint_no_sign d "" Hnil) as (c & s & E & _ & Hc).
    rewrite StrFacts.app_nil_r in E. exists c, s. cbn [String.append].
    by rewrite E, Hc, orb_true_r.
  - by eexists _, _.
Qed.

Lemma text_head t v :
  representable t v = true ->
  exists c s, text_of v = String c s /\ value_start c = true.
Proof.
  destruct v as [| b | n | s | l |]; destruct t; try done; intros _;
    cbn [text_of].
  - by eexists _, _.
  - destruct b; by eexists _, _.
  - destruct (itoa_head n) as (c & s & -> & Hc).
    exists c, s. split; [done |]. by apply number_start_facts.
  - by eexists _, _.
  - by eexists _, _.
Qed.

Lemma skip_ws_start c s : value_start c = true -> skip_ws (String c s) = String c s.
Proof. intros [H _]%value_start_facts. cbn [skip_ws]. by rewrite H. Qed.

Lemma parse_value_number fuel lit rest :
  (exists c s, lit = String c s /\ is_char "-" c || is_digit c = true) ->
  read_number (lit +:+ rest) = Some (lit, rest) ->
  parse_value (S fuel) (lit +:+ rest) = Some (JNumber lit, rest).
Proof.
  intros (c & s & -> & Hc) Hread.
  destruct (number_start_facts c Hc) as (_ & H1 & H2 & H3 & H4 & H5 & H6).
  cbn [String.append] in *. cbn [parse_value].
  by rewrite H1, H2, H3, H4, H5, H6, Hc, Hread.
Qed.

Lemma parse_value_array fuel s' :
  parse_value (S fuel) (String "[" s')
  = match skip_ws s' with
    | String c1 r1 =>
        if is_char "]" c1 then Some (JArray [], r1)
        else
          match parse_elems fuel (skip_ws s') with
          | Some (l, r) => Some (JArray l, r)
          | None => None
          end
    | EmptyString => None
    end.
Proof. reflexivity. Qed.

Lemma parse_elems_step fuel s :
  parse_elems (S fuel) s
  = match parse_value fuel s with
    | None => None
    | Some (v, r) =>
        match skip_ws r with
        | String c r' =>
            if is_char "," c then
              match parse_elems fuel (skip_ws r') with
              | Some (vs, r'') => Some (v :: vs, r'')
              | None => None
              end
            else if is_char "]" c then Some ([v], r')
            else None
        | EmptyString => None
        end
    end.
Proof. reflexivity. Qed.

Lemma parse_elems_text t l :
  l <> [] -> Forall parses l -> forallb (representable t) l = true ->
  forall fuel rest, sizes l <= fuel ->
  parse_elems fuel (commas (map text_of l) +:+ String "]" rest)
  = Some (map tree_of l, rest).
Proof.
  induction l as [|x l IH]; [done |]. intros _ HP Hr fuel rest Hfuel.
  apply Forall_cons in HP as [Hx HP].
  cbn [forallb] in Hr. apply andb_true_iff in Hr as [Hrx Hrl].
  change (sizes (x :: l)) with (S (size x + sizes l)) in Hfuel.
  destruct fuel as [|fuel]; [lia |]. rewrite parse_elems_step.
  destruct l as [|y l]; cbn [map commas].
  - rewrite (Hx t Hrx) by (done || lia).
    reflexivity.
  - unfold join_comma. rewrite !StrFacts.app_assoc. cbn [String.append].
    rewrite (Hx t Hrx) by (done || lia).
    cbn [String.append skip_ws]. change (is_ws ",") with false.
    change (is_char "," ",") with true. cbv iota.
    set (l' := y :: l) in *.
    destruct (text_head t y) as (c & s & E & Hc);
      [by apply andb_true_iff in Hrl as [? _] |].
    assert (Hskip : forall r, skip_ws (commas (map text_of l') +:+ r)
                              = commas (map text_of l') +:+ r).
    { intros r. subst l'. cbn [map commas].
      destruct (map text_of l); [| unfold join_comma];
        rewrite E; cbn [String.append]; by apply skip_ws_start. }
    rewrite Hskip, IH by (done || lia). reflexivity.
Qed.

Lemma parse_text v : parses v.
Proof.
  induction v as [| b | n | s | l IH |] using value_ind';
    intros t Hr fuel rest Hfuel Hrest; destruct t as [| | | t' |]; try done;
    (destruct fuel as [|fuel]; [simpl in Hfuel; lia |]).
  - reflexivity.
  - by destruct b.
  - apply parse_value_number; [apply itoa_head | by apply read_number_itoa].
  - cbn [text_of representable] in *. unfold quote.
    cbn [String.append]. rewrite StrFacts.app_assoc. cbn [String.append].
    cbn [parse_value]. change (is_char "n" dquote) with false.
    change (is_char "t" dquote) with false. change (is_char "f" dquote) with false.
    change (is_dquote dquote) with true. cbv iota.
    by rewrite read_quote_body.
  - cbn [text_of representable] in *.
    change (size (VSlice l)) with (S (sizes l)) in Hfuel.
    rewrite !StrFacts.app_assoc. cbn [String.append].
    rewrite parse_value_array.
    destruct l as [|x l]; [reflexivity |].
    set (l' := x :: l) in *.
    destruct (text_head t' x) as (c & s & E & Hc);
      [by apply andb_true_iff in Hr as [? _] |].
    assert (Hhead : exists s', commas (map text_of l') +:+ String "]" rest = String c s').
    { subst l'. cbn [map commas].
      destruct (map text_of l); [| unfold join_comma];
        rewrite E; cbn [String.append]; by eexists. }
    destruct Hhead as (s' & Hhead).
    destruct (value_start_facts c Hc) as [_ Hclose].
    rewrite Hhead, (skip_ws_start c s' Hc), Hclose, <- Hhead.
    rewrite (parse_elems_text t') by (done || lia).
    reflexivity.
Qed.

(** ** Storing the tree of a value *)

Lemma store_tree v : forall t cur,
  representable t v = true -> store t (tree_of v) cur = inr v.
Proof.
  induction v as [| b | n | s | l IH |] using value_ind'; intros t cur Hr;
    destruct t as [| | | t' |]; try done.
  - cbn [tree_of store representable] in *. by rewrite parse_int64_itoa.
  - cbn [tree_of store representable] in *.
    match goal with |- match ?f ?a ?old with _ => _ end = _ =>
      assert (He : forall old', f a old' = inr l) end.
    { induction l as [|x l IHl]; [done |]. intros old'.
      apply Forall_cons in IH as [Hx Hl].
      cbn [forallb] in Hr. apply andb_true_iff in Hr as [Hrx Hrl].
      cbn [map]. by rewrite (Hx t' (hd (zero t') old') Hrx), (IHl Hl Hrl). }
    by rewrite He.
Qed.

(** ** The fuel [parse] provides is enough *)

Lemma itoa_nonempty n : 1 <= String.length (itoa n).
Proof. destruct (itoa_head n) as (c & s & -> & _). simpl. lia. Qed.

Lemma size_le_length v : forall t,
  representable t v = true -> size v <= String.length (text_of v).
Proof.
  induction v as [| b | n | s | l IH |] using value_ind'; intros t Hr;
    destruct t as [| | | t' |]; try done.
  - simpl. lia.
  - destruct b; simpl; lia.
  - cbn [size text_of]. apply itoa_nonempty.
  - cbn [size text_of]. unfold quote. cbn [String.length]. lia.
  - cbn [size text_of representable] in *. fold (sizes l).
    rewrite !StrFacts.length_app. cbn [String.length].
    enough (sizes l <= S (String.length (commas (map text_of l)))) by lia.
    induction l as [|x l IHl]; [unfold sizes; simpl; lia |].
    apply Forall_cons in IH as [Hx Hl].
    cbn [forallb] in Hr. apply andb_true_iff in Hr as [Hrx Hrl].
    change (sizes (x :: l)) with (S (size x + sizes l)).
    specialize (Hx t' Hrx). specialize (IHl Hl Hrl).
    destruct l as [|y l].
    + cbn [map commas]. change (sizes []) with 0. lia.
    + change (commas (map text_of (x :: y :: l)))
        with (text_of x +:+ "," +:+ commas (map text_of (y :: l))).
      rewrite !StrFacts.length_app. cbn [String.length]. lia.
Qed.

(** ** Round trip *)

Lemma parse_text_of t v :
  representable t v = true -> parse (text_of v) = Some (tree_of v).
Proof.
  intros Hr. unfold parse.
  destruct (text_head t v Hr) as (c & s & E & Hc).
  rewrite E at 2. rewrite (skip_ws_start c s Hc), <- E.
  rewrite <- (StrFacts.app_nil_r (text_of v)) at 2.
  rewrite (parse_text v t Hr); [done | | done].
  pose proof (size_le_length v t Hr). lia.
Qed.

Lemma Unmarshal_Marshal t v cur :
  representable t v = true ->
  Marshal v = inr (text_of v) /\ Unmarshal (text_of v) t cur = inr v.
Proof.
  intros Hr. split; [by apply (encode_text v t) |].
  unfold Unmarshal. rewrite (parse_text_of t v Hr). by apply store_tree.
Qed.
End JsonFacts.

Module ClientFacts.
Import Str Json Client.

(** Induction on syntax trees, with the hypothesis for the elements of
    an array. *)
Lemma json_ind' (P : json -> Prop) :
  P JNull -> (forall b, P (JBool b)) -> (forall lit, P (JNumber lit)) ->
  (forall s, P (JString s)) ->
  (forall l, Forall P l -> P (JArray l)) ->
  (forall l, P (JObject l)) ->
  forall j, P j.
Proof.
  intros HNull HBool HNumber HString HArray HObject.
  fix IH 1. intros [| b | lit | s | l | l];
    [exact HNull | apply HBool | apply HNumber | apply HString | | apply HObject].
  apply HArray. induction l as [|x l IHl]; constructor; [apply IH | exact IHl].
Qed.

Section WithEnv.
Context {E : Env}.

Lemma logRequest_request c req : (logRequest c req).2 = req.
Proof.
  unfold logRequest, DumpRequest.
  destruct (logRequests c); [| done]. simpl. by destruct (request_dump req).
Qed.

(** Reading the body after [logResponse] gives what reading it before
    would have given. *)
Lemma logResponse_body c res :
  ReadAll (Body (logResponse c res).2) = ReadAll (Body res).
Proof.
  unfold logResponse, DumpResponse, ReadAll.
  destruct (logResponses c); [| done]. simpl.
  destruct res as [code hdr [body [e|]]]; simpl; [done |].
  by destruct (response_dump _).
Qed.

Lemma decRes_logResponse {R} c res (reply : Reply R) :
  decRes (Body (logResponse c res).2) reply = decRes (Body res) reply.
Proof. unfold decRes. by rewrite logResponse_body. Qed.

(** [httpDo], stage by stage. *)
Lemma httpDo_stages {R} c method path payload (reply : Reply R) :
  outcome (httpDo c method path payload reply)
  = match encPayload payload with
    | inl err => inl err
    | inr body =>
        let req := sent c method path body in
        match request_error method (URL req) with
        | Some err => inl err
        | None =>
            match ctxhttp_Do (ctx c) (httpClient c) req with
            | inl e => inl (error_of_do e)
            | inr res => decRes (Body res) reply
            end
        end
    end.
Proof.
  unfold httpDo, outcome, bind, lift, tell, NewRequest, sent.
  destruct (encPayload payload) as [err | body]; [done |]. simpl.
  destruct (request_error _ _) as [err |]; [done |]. simpl.
  pose proof (logRequest_request c
    {| Method := method; URL := "http://" +:+ request_host c +:+ path;
       ReqBody := body |}) as Hreq.
  destruct (logRequest c _) as [l1 req']. simpl in Hreq. subst req'. simpl.
  destruct (ctxhttp_Do _ _ _) as [e | res]; [done |]. simpl.
  pose proof (decRes_logResponse c res reply) as Hres.
  destruct (logResponse c res) as [l2 res']. simpl in *.
  by rewrite Hres.
Qed.

(** The errors of [json.Unmarshal] are its own. *)
Lemma store_error j : forall t cur e,
  store t j cur = inl e -> exists a b, e = json_UnmarshalTypeError a b.
Proof.
  induction j as [| b | lit | s | l IH | l] using json_ind';
    intros t cur e; destruct t as [| | | t' |]; cbn [store];
    try (intros [= <-]; by eexists _, _); try done.
  - destruct (parse_int64 lit); [done | intros [= <-]; by eexists _, _].
  - generalize (elements cur). intros old.
    match goal with |- match ?x with _ => _ end = _ -> _ =>
      destruct x as [e' | vs] eqn:He; [intros [= <-] | done] end.
    revert old e' He. induction l as [|x l IHl]; [done |]. intros old e' He.
    apply Forall_cons in IH as [Hx Hl].
    destruct (store t' x (hd (zero t') old)) as [ex | v] eqn:Hsx.
    + injection He as <-. by apply (Hx t' (hd (zero t') old)).
    + match type of He with match ?y with _ => _ end = _ =>
        destruct y as [el | vs'] eqn:Hel; [| done] end.
      injection He as <-. by apply (IHl Hl (tl old)).
Qed.

Lemma Unmarshal_error data t cur e :
  Unmarshal data t cur = inl e ->
  (exists m, e = json_SyntaxError m) \/ (exists a b, e = json_UnmarshalTypeError a b).
Proof.
  unfold Unmarshal. destruct (parse data) as [j |].
  - intros H. right. by apply (store_error j t cur).
  - intros [= <-]. left. by eexists.
Qed.

Lemma json_error_not_transport data t cur e :
  Unmarshal data t cur = inl e -> forall te, e <> error_of_do te.
Proof.
  intros [[m ->] | (a & b & ->)]%Unmarshal_error [x | op url msg]; done.
Qed.
End WithEnv.
End ClientFacts.

(** * [getLocalDevices] *)

Module LocalDevicesFacts.
Import Str StrFacts Regexp RegexpFacts Client.

Lemma word_not_space c : is_word c = true -> is_space c = false.
Proof.
  intros Hw. destruct (is_space c) eqn:Hs; [| done].
  apply space_not_word in Hs. congruence.
Qed.

(** The loop body on the program of a literal prefix. *)
Lemma device_of_line_inv p l d :
  device_of_line {| prog := device_rx p; numSubexp := 1 |} l = Some d ->
  exists a s w,
    l = a +:+ String s (p +:+ w)
    /\ a <> "" /\ is_space s = true
    /\ w <> "" /\ all is_word w = true
    /\ d = "/dev/" +:+ (p +:+ w).
Proof.
  unfold device_of_line.
  destruct (find_device_rx p l _ eq_refl)
    as [-> | (a & s & w & Hl & Ha & _ & Hs & Hw & Hword & ->)]; [done |].
  intros [= <-]. exists a, s, w. by split_and!.
Qed.

Lemma device_of_line_bare p w :
  all is_word w = true ->
  device_of_line {| prog := device_rx p; numSubexp := 1 |} (p +:+ w) = None.
Proof.
  intros Hw.
  destruct (device_of_line _ _) as [d |] eqn:Hd; [exfalso | done].
  apply device_of_line_inv in Hd as (a & s & w' & Hl & _ & Hs & _ & Hw' & _).
  apply (f_equal (count is_space)) in Hl.
  rewrite !count_app in Hl. cbn [count] in Hl. rewrite Hs, count_app in Hl.
  rewrite (count_all_false is_space is_word w word_not_space Hw) in Hl.
  lia.
Qed.

Section WithEnv.
Context {E : Env}.

(** C10 (as amended). For a prefix without pattern operators,
    [getLocalDevices] compiles its pattern and returns, without error,
    the entries of the scanned lines in order.  A line yields an entry
    only if it consists of at least one character, a white space
    character, the prefix and at least one word character up to its
    end; the entry is then [/dev/] followed by the captured group, which
    is the prefix with these word characters.  A line that is only the
    prefix followed by word characters yields no entry. *)
Theorem getLocalDevices_entries (c : client) (prefix buf : string) :
  all literal prefix = true ->
  ReadFile (Gofig.GetString (config c) "libstorage.client.localdevicesfile")
    = inr buf ->
  exists rx,
    MustCompile (device_pattern prefix) = Some rx
    /\ getLocalDevices c prefix
       = Some (Some (omap (device_of_line rx) (Bufio.scan buf)), None)
    /\ (forall l d, device_of_line rx l = Some d ->
          exists a s w,
            l = a +:+ String s (prefix +:+ w)
            /\ a <> "" /\ is_space s = true
            /\ w <> "" /\ all is_word w = true
            /\ d = "/dev/" +:+ (prefix +:+ w)
            /\ has_prefix (prefix +:+ w) prefix = true)
    /\ (forall w, all is_word w = true ->
          device_of_line rx (prefix +:+ w) = None).
Proof.
  intros Hp Hfile.
  exists {| prog := device_rx prefix; numSubexp := 1 |}.
  assert (Hrx := compile_device_pattern prefix Hp).
  split_and!.
  - exact Hrx.
  - unfold getLocalDevices. rewrite Hfile. unfold device_pattern. by rewrite Hrx.
  - intros l d (a & s & w & ? & ? & ? & ? & ? & ?)%device_of_line_inv.
    exists a, s, w. split_and!; try done. apply has_prefix_app.
  - apply device_of_line_bare.
Qed.

(** C2 (as amended). On the device table of the scenario, with the
    device name first on its line, [getLocalDevices "xvd"] returns the
    empty sequence and no error; with the device name last on its line
    it returns [/dev/xvdb]. *)
Theorem getLocalDevices_scenario (c : client) (buf : string) :
  ReadFile (Gofig.GetString (config c) "libstorage.client.localdevicesfile")
    = inr buf ->
  (buf = Examples.table_name_first ->
     getLocalDevices c "xvd" = Some (Some [], None))
  /\ (buf = Examples.table_name_last ->
     getLocalDevices c "xvd" = Some (Some ["/dev/xvdb"], None)).
Proof.
  intros Hfile. unfold getLocalDevices. rewrite Hfile.
  split; intros ->; vm_compute; reflexivity.
Qed.
End WithEnv.

(** C10, witness: the prefix [xvd] on the table with the name last. *)
Lemma getLocalDevices_entries_witness :
  all literal "xvd" = true
  /\ exists rx,
      MustCompile (device_pattern "xvd") = Some rx
      /\ getLocalDevices (E := Examples.env_ok)
           (Examples.tcp_client Examples.env_ok "/etc/name-last") "xvd"
         = Some (Some (omap (device_of_line rx)
                        (Bufio.scan Examples.table_name_last)), None)
      /\ (forall l d, device_of_line rx l = Some d ->
            exists a s w,
              l = a +:+ String s ("xvd" +:+ w)
              /\ a <> "" /\ is_space s = true
              /\ w <> "" /\ all is_word w = true
              /\ d = "/dev/" +:+ ("xvd" +:+ w)
              /\ has_prefix ("xvd" +:+ w) "xvd" = true)
      /\ (forall w, all is_word w = true -> device_of_line rx ("xvd" +:+ w) = None).
Proof.
  split; [reflexivity |].
  apply (getLocalDevices_entries (E := Examples.env_ok)
           (Examples.tcp_client Examples.env_ok "/etc/name-last")
           "xvd" Examples.table_name_last); reflexivity.
Defined.

(** C10, counterexample: the prefix [.] is a pattern operator.  On the
    table with the name last the entries are [/dev/sda] and [/dev/xvdb],
    and neither captured group begins with the prefix. *)
Lemma getLocalDevices_operator_prefix :
  getLocalDevices (E := Examples.env_ok)
    (Examples.tcp_client Examples.env_ok "/etc/name-last") "."
  = Some (Some ["/dev/sda"; "/dev/xvdb"], None)
  /\ has_prefix "sda" "." = false /\ has_prefix "xvdb" "." = false.
Proof. vm_compute. by split_and!. Qed.

(** C2, witness. *)
Lemma getLocalDevices_scenario_witness :
  ReadFile (Env := Examples.env_ok)
    (Gofig.GetString (config (Examples.tcp_client Examples.env_ok "/etc/name-first"))
       "libstorage.client.localdevicesfile")
  = inr Examples.table_name_first
  /\ getLocalDevices (E := Examples.env_ok)
       (Examples.tcp_client Examples.env_ok "/etc/name-first") "xvd"
     = Some (Some [], None).
Proof.
  split; [reflexivity |].
  apply (getLocalDevices_scenario (E := Examples.env_ok)
           (Examples.tcp_client Examples.env_ok "/etc/name-first")
           Examples.table_name_first); reflexivity.
Defined.

(** C2, counterexample: on the table of the scenario the result is not
    the sequence [/dev/xvdb]. *)
Lemma getLocalDevices_scenario_counterexample :
  getLocalDevices (E := Examples.env_ok)
    (Examples.tcp_client Examples.env_ok "/etc/name-first") "xvd"
  <> Some (Some ["/dev/xvdb"], None).
Proof. vm_compute. discriminate. Qed.

End LocalDevicesFacts.

(** * The dispatcher and [Dial] *)

Module DispatchFacts.
Import Str Json JsonFacts Client ClientFacts.

Section WithEnv.
Context {E : Env}.

(** C1. The host of the request URL is the server name of the TLS
    configuration if there is one and the name is not empty; otherwise
    it is [libstorage-server] for the protocol [unix] and the resolved
    address for any other protocol.  Once the payload is encoded, the
    URL that is logged, checked by [http.NewRequest] and carried by the
    request given to [ctxhttp.Do] is [http://], the host and the
    path, with or without a TLS configuration. *)
Theorem httpDo_request_url {R} (c : client) (method path : string)
    (payload : option value) (reply : Reply R) :
  let host := request_host c in
  let url := "http://" +:+ host +:+ path in
  (forall cfg, tlsConfig c = Some cfg -> ServerName cfg <> "" ->
     host = ServerName cfg)
  /\ (tlsConfig c = None
      \/ (exists cfg, tlsConfig c = Some cfg /\ ServerName cfg = "") ->
      (proto c = "unix" -> host = "libstorage-server")
      /\ (proto c <> "unix" -> host = laddr c))
  /\ (forall body, encPayload payload = inr body ->
      URL (sent c method path body) = url
      /\ head (output (httpDo c method path payload reply))
         = Some (LogDebug {[ "url" := url ]} "built request url")
      /\ outcome (httpDo c method path payload reply)
         = match request_error method url with
           | Some err => inl err
           | None =>
               match ctxhttp_Do (ctx c) (httpClient c)
                       {| Method := method; URL := url; ReqBody := body |} with
               | inl e => inl (error_of_do e)
               | inr res => decRes (Body res) reply
               end
           end).
Proof.
  cbv zeta. split_and!.
  - intros cfg Hcfg Hname. unfold request_host. rewrite Hcfg.
    apply String.eqb_neq in Hname. by rewrite Hname.
  - intros Htls.
    assert (Hhost : request_host c
                    = if String.eqb (proto c) "unix"
                      then "libstorage-server" else laddr c).
    { unfold request_host. destruct Htls as [-> | (cfg & -> & ->)]; done. }
    rewrite Hhost. split; intros Hp.
    + by rewrite Hp.
    + apply String.eqb_neq in Hp. by rewrite Hp.
  - intros body Hbody. split_and!.
    + reflexivity.
    + unfold httpDo, output, lift, tell. rewrite Hbody.
      unfold bind at 1 2. cbn [fst snd app].
      by destruct (bind _ _).
    + rewrite httpDo_stages, Hbody. reflexivity.
Qed.

Lemma Dial_cases (ctx0 : option Context) (config : Gofig.Config) :
  let host := Gofig.GetString config "libstorage.host" in
  (host = ""
   /\ Dial ctx0 config
      = ([], (None, Some (goof_Error "libstorage.host is required"))))
  \/ (host <> ""
      /\ exists e, ParseTLSConfig (Gofig.Scope config "libstorage.client") = inl e
                   /\ Dial ctx0 config = ([], (None, Some e)))
  \/ (host <> ""
      /\ (exists r, ParseTLSConfig (Gofig.Scope config "libstorage.client") = inr r)
      /\ exists e, ParseAddress host = inl e
                   /\ Dial ctx0 config = ([], (None, Some e)))
  \/ (host <> ""
      /\ exists tls fields cProto cLaddr c,
           ParseTLSConfig (Gofig.Scope config "libstorage.client")
             = inr (tls, fields)
           /\ ParseAddress host = inr (cProto, cLaddr)
           /\ (Dial ctx0 config).2 = (Some c, None)
           /\ proto c = cProto /\ laddr c = cLaddr /\ tlsConfig c = tls
           /\ forall p a,
                Transport_Dial (httpClient c) p a
                = match tls with
                  | None => net_Dial cProto cLaddr
                  | Some cfg => tls_Dial cProto cLaddr cfg
                  end).
Proof.
  cbv zeta. unfold Dial.
  destruct (String.eqb_spec (Gofig.GetString config "libstorage.host") "")
    as [Hhost | Hhost]; [by left |].
  right.
  destruct (ParseTLSConfig _) as [e | [tls fields]]; [left; by eauto |].
  right.
  destruct (ParseAddress _) as [e | [cProto cLaddr]]; [left; by eauto 10 |].
  right. split; [done |].
  destruct ctx0 as [ctx0 |]; cbn [snd];
    eexists tls, fields, cProto, cLaddr, _; by split_and!.
Qed.

(** C3. In the client [Dial] returns, the dialer ignores its two
    arguments: it calls [net.Dial] when there is no TLS configuration and
    [tls.Dial] with the configuration when there is one, in both cases on
    the protocol and the address [gotil.ParseAddress] resolved from the
    configured host. *)
Theorem Dial_dialer (ctx0 : option Context) (config : Gofig.Config)
    (c : client) :
  (Dial ctx0 config).2 = (Some c, None) ->
  ParseAddress (Gofig.GetString config "libstorage.host")
    = inr (proto c, laddr c)
  /\ (exists fields,
        ParseTLSConfig (Gofig.Scope config "libstorage.client")
          = inr (tlsConfig c, fields))
  /\ (forall p a,
        Transport_Dial (httpClient c) p a
        = match tlsConfig c with
          | None => net_Dial (proto c) (laddr c)
          | Some cfg => tls_Dial (proto c) (laddr c) cfg
          end)
  /\ (forall p a p' a',
        Transport_Dial (httpClient c) p a = Transport_Dial (httpClient c) p' a').
Proof.
  intros HDial.
  destruct (Dial_cases ctx0 config)
    as [[_ H] | [(_ & e & _ & H) | [(_ & _ & e & _ & H)
        | (_ & tls & fields & cProto & cLaddr & c' & Htls & Haddr & H
           & <- & <- & <- & Hdial)]]];
    try (rewrite H in HDial; discriminate HDial).
  rewrite H in HDial. injection HDial as ->.
  split_and!; [done | by eexists | done |].
  intros p a p' a'. by rewrite !Hdial.
Qed.

(** C7. [Dial] returns an error and no client when the configured
    host is empty, when [utils.ParseTLSConfig] rejects the TLS settings,
    and when [gotil.ParseAddress] cannot parse the host.  The error is
    the one that names the missing host, or the error of the function
    that failed. *)
Theorem Dial_configuration_error (ctx0 : option Context)
    (config : Gofig.Config) :
  let host := Gofig.GetString config "libstorage.host" in
  let tls := ParseTLSConfig (Gofig.Scope config "libstorage.client") in
  host = "" \/ (exists e, tls = inl e) \/ (exists e, ParseAddress host = inl e) ->
  exists err,
    Dial ctx0 config = ([], (None, Some err))
    /\ (host = "" -> err = goof_Error "libstorage.host is required")
    /\ (host <> "" -> forall e, tls = inl e -> err = e)
    /\ (host <> "" -> (exists r, tls = inr r) ->
        forall e, ParseAddress host = inl e -> err = e).
Proof.
  cbv zeta. intros Hbad.
  destruct (Dial_cases ctx0 config)
    as [[Hhost H] | [(Hhost & e & Htls & H) | [(Hhost & [r Htls] & e & Haddr & H)
        | (Hhost & tls & fields & cProto & cLaddr & c' & Htls & Haddr & _)]]].
  - eexists. split_and!; [exact H | done | done | done].
  - exists e. split_and!; [exact H | done | congruence |].
    intros _ [r Hr]. congruence.
  - exists e. split_and!; [exact H | done | congruence | congruence].
  - exfalso. destruct Hbad as [? | [[e He] | [e He]]]; congruence.
Qed.
End WithEnv.

(** C1, on concrete clients: a TCP client without TLS, a client on a
    Unix socket, and a client on a Unix socket whose TLS configuration
    names the server. *)
Example request_host_tcp :
  URL (sent (Examples.a_client Examples.env_ok "" "tcp" "127.0.0.1:7979" None)
         "GET" "/volumes" None)
  = "http://127.0.0.1:7979/volumes".
Proof. reflexivity. Qed.

Example request_host_unix :
  URL (sent (Examples.a_client Examples.env_ok "" "unix" "/var/run/ls.sock" None)
         "GET" "/volumes" None)
  = "http://libstorage-server/volumes".
Proof. reflexivity. Qed.

Example request_host_server_name :
  URL (sent (Examples.a_client Examples.env_ok "" "unix" "/var/run/ls.sock"
               (Some {| ServerName := "storage.example.com";
                        InsecureSkipVerify := false |}))
         "GET" "/volumes" None)
  = "http://storage.example.com/volumes".
Proof. reflexivity. Qed.

(** C3, witness: [Dial] without and with a TLS configuration. *)
Lemma Dial_dialer_witness :
  (exists c,
     (Dial (E := Examples.env_ok) None
        (Examples.settings "tcp://127.0.0.1:7979" "")).2 = (Some c, None)
     /\ forall p a,
          Transport_Dial (httpClient c) p a
          = net_Dial (Env := Examples.env_ok) "tcp" "127.0.0.1:7979")
  /\ (exists c cfg,
        (Dial (E := Examples.env_tls) None
           (Examples.settings "unix:///var/run/ls.sock" "")).2 = (Some c, None)
        /\ forall p a,
             Transport_Dial (httpClient c) p a
             = tls_Dial (Env := Examples.env_tls) "unix" "/var/run/ls.sock" cfg).
Proof.
  split.
  - eexists. split; [vm_compute; reflexivity |].
    intros p a.
    refine (proj1 (proj2 (proj2 (Dial_dialer (E := Examples.env_ok) None
      (Examples.settings "tcp://127.0.0.1:7979" "") _ _))) p a).
    vm_compute; reflexivity.
  - eexists _, _. split; [vm_compute; reflexivity |].
    intros p a.
    refine (proj1 (proj2 (proj2 (Dial_dialer (E := Examples.env_tls) None
      (Examples.settings "unix:///var/run/ls.sock" "") _ _))) p a).
    vm_compute; reflexivity.
Defined.

(** C7, witness: no host, TLS settings that are rejected, and a host
    that is no address. *)
Lemma Dial_configuration_error_witness :
  (exists err,
     Dial (E := Examples.env_ok) None (Examples.settings "" "")
     = ([], (None, Some err)))
  /\ (exists err,
        Dial (E := Examples.env_bad_tls) None
          (Examples.settings "tcp://127.0.0.1:7979" "")
        = ([], (None, Some err)))
  /\ (exists err,
        Dial (E := Examples.env_ok) None (Examples.settings "127.0.0.1" "")
        = ([], (None, Some err))).
Proof.
  split_and!.
  - destruct (Dial_configuration_error (E := Examples.env_ok) None
                (Examples.settings "" "")) as (err & H & _);
      [left; reflexivity | by exists err].
  - destruct (Dial_configuration_error (E := Examples.env_bad_tls) None
                (Examples.settings "tcp://127.0.0.1:7979" "")) as (err & H & _);
      [right; left; eexists; reflexivity | by exists err].
  - destruct (Dial_configuration_error (E := Examples.env_ok) None
                (Examples.settings "127.0.0.1" "")) as (err & H & _);
      [right; right; eexists; vm_compute; reflexivity | by exists err].
Defined.

(** What the dispatcher does with an error of [ctxhttp.Do], the error
    of a cancelled context included: it returns it at once.  Nothing of
    the response is logged or decoded. *)
Lemma httpDo_transport_error {E : Env} {R} (c : client) (method path : string)
    (payload : option value) (reply : Reply R)
    (body : option string) (e : do_error) :
  encPayload payload = inr body ->
  request_error method (URL (sent c method path body)) = None ->
  ctxhttp_Do (ctx c) (httpClient c) (sent c method path body) = inl e ->
  outcome (httpDo c method path payload reply) = inl (error_of_do e).
Proof.
  intros Hbody Hreq Hdo. rewrite httpDo_stages, Hbody. cbv zeta.
  by rewrite Hreq, Hdo.
Qed.

End DispatchFacts.

(** * Exchanges: payloads, replies and logging *)

Module ExchangeFacts.
Import Str Json JsonFacts Client ClientFacts.

Lemma Root_outcome {E : Env} (c : client) :
  (Root c).2
  = match outcome (httpGet c "/" (ptr RootResponse (VSlice []))) with
    | inl err => (VNil, Some err)
    | inr reply => (reply, None)
    end.
Proof. unfold Root, outcome. by destruct (httpGet _ _ _) as [l [e | v]]. Qed.

Lemma Volumes_outcome {E : Env} {M} (nil : M) (reply : Reply M) (c : client) :
  (Volumes nil reply c).2
  = match outcome (httpGet c "/volumes" reply) with
    | inl err => (nil, Some err)
    | inr m => (m, None)
    end.
Proof. unfold Volumes, outcome. by destruct (httpGet _ _ _) as [l [e | v]]. Qed.



Section WithEnv.
Context {E : Env}.

(** C4 (as amended). When the round trip succeeds and decoding the
    body fails, the exchange fails with the error of the decoding step,
    passed on as it is.  A body that cannot be read to its end makes
    the exchange fail with the error of the body's reader; a body
    that was read and is no JSON for the container makes it fail with
    the error of [json.Unmarshal], which is no error that [ctxhttp.Do]
    reports.  At this stage the exchange fails in no other way.
    [Root] and [Volumes] return the error of the dispatcher unchanged,
    with a nil result. *)
Theorem decode_failure (c : client) (method path : string)
    (payload : option value) (t : type) (cur : value)
    (body : option string) (res : Response) :
  encPayload payload = inr body ->
  request_error method (URL (sent c method path body)) = None ->
  ctxhttp_Do (ctx c) (httpClient c) (sent c method path body) = inr res ->
  (forall e, fault (Body res) = Some e ->
     outcome (httpDo c method path payload (ptr t cur)) = inl e)
  /\ (forall e, fault (Body res) = None ->
        Unmarshal (content (Body res)) t cur = inl e ->
        outcome (httpDo c method path payload (ptr t cur)) = inl e
        /\ forall te, e <> error_of_do te)
  /\ (forall e, decRes (Body res) (ptr t cur) = inl e ->
        outcome (httpDo c method path payload (ptr t cur)) = inl e)
  /\ (forall e, outcome (httpDo c method path payload (ptr t cur)) = inl e ->
        fault (Body res) = Some e
        \/ (fault (Body res) = None
            /\ Unmarshal (content (Body res)) t cur = inl e
            /\ forall te, e <> error_of_do te))
  /\ (forall err,
        outcome (httpGet c "/" (ptr RootResponse (VSlice []))) = inl err ->
        (Root c).2 = (VNil, Some err))
  /\ (forall M (nil : M) (reply : Reply M) err,
        outcome (httpGet c "/volumes" reply) = inl err ->
        (Volumes nil reply c).2 = (nil, Some err)).
Proof.
  intros Hbody Hreq Hdo.
  assert (outcome (httpDo c method path payload (ptr t cur))
          = match fault (Body res) with
            | Some e => inl e
            | None => Unmarshal (content (Body res)) t cur
            end) as Hout.
  { rewrite httpDo_stages, Hbody. cbv zeta. rewrite Hreq, Hdo.
    unfold decRes, ReadAll, ptr. by destruct (fault (Body res)). }
  split_and!.
  - intros e Hfault. by rewrite Hout, Hfault.
  - intros e Hfault He. rewrite Hout, Hfault. split; [done |].
    by eapply json_error_not_transport.
  - intros e Hdec. rewrite Hout. unfold decRes, ReadAll, ptr in Hdec.
    by destruct (fault (Body res)).
  - intros e. rewrite Hout.
    destruct (fault (Body res)) as [e' |]; [left; congruence | right].
    split_and!; [done | done |]. by eapply json_error_not_transport.
  - intros err Herr. by rewrite Root_outcome, Herr.
  - intros M nil reply err Herr. by rewrite Volumes_outcome, Herr.
Qed.

(** C5 (as amended). Without a payload, as in [httpGet] and
    [httpDelete], the request has no body.  With a payload the body is
    the text [json.Marshal] returns for it; if the payload is
    representable, decoding that text yields the payload.  If
    [json.Marshal] fails, the exchange fails with its error before
    anything is logged or requested. *)
Theorem request_body {R} (c : client) (method path : string)
    (payload : option value) (reply : Reply R) :
  (payload = None -> encPayload payload = inr None)
  /\ httpGet c path reply = httpDo c "GET" path None reply
  /\ httpDelete c path reply = httpDo c "DELETE" path None reply
  /\ (forall v buf, payload = Some v -> Marshal v = inr buf ->
        encPayload payload = inr (Some buf))
  /\ (forall v tv cur', payload = Some v -> representable tv v = true ->
        exists buf, encPayload payload = inr (Some buf)
                    /\ Unmarshal buf tv cur' = inr v)
  /\ (forall v err, payload = Some v -> Marshal v = inl err ->
        httpDo c method path payload reply = ([], inl err))
  /\ (forall body, encPayload payload = inr body ->
        outcome (httpDo c method path payload reply)
        = match request_error method (URL (sent c method path body)) with
          | Some err => inl err
          | None =>
              match ctxhttp_Do (ctx c) (httpClient c)
                      {| Method := method;
                         URL := URL (sent c method path body);
                         ReqBody := body |} with
              | inl e => inl (error_of_do e)
              | inr res => decRes (Body res) reply
              end
          end).
Proof.
  split_and!.
  - by intros ->.
  - reflexivity.
  - reflexivity.
  - intros v buf -> Hm. unfold encPayload. by rewrite Hm.
  - intros v tv cur' -> Hr.
    destruct (Unmarshal_Marshal tv v cur' Hr) as [Hm Hu].
    exists (text_of v). unfold encPayload. by rewrite Hm.
  - intros v err -> Hm. unfold httpDo, encPayload, lift, bind. by rewrite Hm.
  - intros body Hbody. rewrite httpDo_stages, Hbody. reflexivity.
Qed.
End WithEnv.

(** C8. The outcome of an exchange, and with it the result of [Root] and
    [Volumes], is the same whatever the two logging flags are and whatever
    the functions behind the wire dumps return, errors included. *)
Theorem logging_frame (E : Env) (c : client) (lreq lres : bool)
    (rd : Request -> error + string) (sd : Response -> error + string)
    (wi : string -> string)
    (method path : string) (payload : option value)
    {R} (reply : Reply R) :
  outcome (httpDo (E := with_dumps rd sd wi E) (with_logging lreq lres c)
             method path payload reply)
  = outcome (httpDo (E := E) c method path payload reply)
  /\ (Root (E := with_dumps rd sd wi E) (with_logging lreq lres c)).2
     = (Root (E := E) c).2
  /\ (forall M (nil : M) (volumes : Reply M),
        (Volumes (E := with_dumps rd sd wi E) nil volumes
           (with_logging lreq lres c)).2
        = (Volumes (E := E) nil volumes c).2).
Proof.
  assert (H : forall T method path payload (reply : Reply T),
    outcome (httpDo (E := with_dumps rd sd wi E) (with_logging lreq lres c)
               method path payload reply)
    = outcome (httpDo (E := E) c method path payload reply)).
  { intros. by rewrite !httpDo_stages. }
  split_and!.
  - apply H.
  - rewrite !Root_outcome. unfold httpGet. by rewrite H.
  - intros M nil volumes. rewrite !Volumes_outcome. unfold httpGet. by rewrite H.
Qed.

(** C4, witness: the reading of the answer to [Root] is cut short, and
    the server answers [Root] with a text that is no JSON. *)
Lemma decode_failure_witness :
  (let E := Examples.env_body_cancelled in
   let c := Examples.tcp_client E "" in
   let e := context_Error Canceled in
   exists res,
     ctxhttp_Do (ctx c) (httpClient c) (sent c "GET" "/" None) = inr res
     /\ fault (Body res) = Some e
     /\ outcome (httpDo c "GET" "/" None (ptr RootResponse (VSlice []))) = inl e
     /\ (Root c).2 = (VNil, Some e))
  /\ (let E := Examples.env_garbage in
      let c := Examples.tcp_client E "" in
      let e := json_SyntaxError "invalid character" in
      exists res,
        ctxhttp_Do (ctx c) (httpClient c) (sent c "GET" "/" None) = inr res
        /\ fault (Body res) = None
        /\ Unmarshal (content (Body res)) RootResponse (VSlice []) = inl e
        /\ outcome (httpDo c "GET" "/" None (ptr RootResponse (VSlice []))) = inl e
        /\ (Root c).2 = (VNil, Some e)).
Proof.
  cbv zeta. split.
  - pose proof (decode_failure (E := Examples.env_body_cancelled)
      (Examples.tcp_client Examples.env_body_cancelled "")
      "GET" "/" None RootResponse (VSlice []) None _
      eq_refl eq_refl eq_refl) as (H1 & _ & _ & _ & H5 & _).
    eexists. split_and!; [reflexivity | reflexivity | |].
    + exact (H1 _ eq_refl).
    + apply H5. exact (H1 _ eq_refl).
  - pose proof (decode_failure (E := Examples.env_garbage)
      (Examples.tcp_client Examples.env_garbage "")
      "GET" "/" None RootResponse (VSlice []) None _
      eq_refl eq_refl eq_refl) as (_ & H2 & _ & _ & H5 & _).
    eexists. split_and!; [reflexivity | reflexivity | reflexivity | |].
    + exact (proj1 (H2 _ eq_refl eq_refl)).
    + apply H5. exact (proj1 (H2 _ eq_refl eq_refl)).
Defined.

(** C4, counterexample: reading the body is cut short by the
    cancellation of the context.  The round trip has succeeded, the
    exchange fails while decoding, and the error [Root] returns is the one
    it returns when the round trip itself is cancelled. *)
Lemma decode_failure_counterexample :
  let A := Examples.env_body_cancelled in
  let B := Examples.env_cancelled in
  (exists res,
     ctxhttp_Do (Env := A) (ctx (Examples.tcp_client A ""))
       (httpClient (Examples.tcp_client A ""))
       (sent (Examples.tcp_client A "") "GET" "/" None) = inr res
     /\ decRes (Body res) (ptr RootResponse (VSlice [])) = inl (context_Error Canceled))
  /\ (Root (E := A) (Examples.tcp_client A "")).2
     = (VNil, Some (error_of_do (DoContext Canceled)))
  /\ ctxhttp_Do (Env := B) (ctx (Examples.tcp_client B ""))
       (httpClient (Examples.tcp_client B ""))
       (sent (Examples.tcp_client B "") "GET" "/" None) = inl (DoContext Canceled)
  /\ (Root (E := B) (Examples.tcp_client B "")).2
     = (VNil, Some (error_of_do (DoContext Canceled))).
Proof.
  cbv zeta. split_and!.
  - eexists. split; reflexivity.
  - by rewrite Root_outcome; unfold httpGet; rewrite httpDo_stages.
  - reflexivity.
  - by rewrite Root_outcome; unfold httpGet; rewrite httpDo_stages.
Qed.

(** C5, counterexample: a string that is no valid UTF-8 is a payload
    [json.Marshal] accepts; decoding the request body yields another
    string. *)
Lemma request_body_counterexample :
  exists buf v,
    encPayload (Some Examples.bad_utf8) = inr (Some buf)
    /\ Unmarshal buf TString (zero TString) = inr v
    /\ v <> Examples.bad_utf8.
Proof.
  exists (quote (String (ascii_of_N 255) "")), (VString replacement).
  split_and!; [reflexivity | vm_compute; reflexivity | discriminate].
Qed.

End ExchangeFacts.

(** * The matcher finds every match of the device pattern *)

Module MatchFacts.
Import Str StrFacts Regexp RegexpFacts.

Lemma orelse_some {A} (x y : option A) :
  is_Some x \/ is_Some y -> is_Some (orelse x y).
Proof. destruct x; simpl; [eauto | by intros [[? [=]] | ?]]. Qed.

(** A repetition can stop after any run of characters of its class. *)
Lemma star_complete cs g k (a s : string) p cp :
  all (cset_mem cs) a = true ->
  is_Some (k (MState (p + String.length a) s cp)) ->
  is_Some (star cs g k p (a +:+ s) cp).
Proof.
  revert p. induction a as [|c a IH]; intros p Ha Hk.
  - simpl in *. rewrite Nat.add_0_r in Hk.
    destruct s as [|c s]; simpl; [done |].
    destruct (cset_mem cs c); [| done].
    destruct g; apply orelse_some; auto.
  - simpl in Ha. apply andb_prop in Ha as [Hc Ha].
    simpl. rewrite Hc.
    assert (is_Some (star cs g k (S p) (a +:+ s) cp)) as Hstar.
    { apply IH; [done |]. simpl in Hk. by rewrite Nat.add_succ_r in Hk. }
    destruct g; apply orelse_some; auto.
Qed.

Lemma plus_complete cs g k (c : ascii) (a s : string) p cp :
  cset_mem cs c = true ->
  all (cset_mem cs) a = true ->
  is_Some (k (MState (S p + String.length a) s cp)) ->
  is_Some (run (RRep cs Plus g) k (MState p (String c (a +:+ s)) cp)).
Proof.
  intros Hc Ha Hk. simpl. unfold step. simpl. rewrite Hc.
  unfold star_k. simpl. by apply star_complete.
Qed.

(** A literal text is matched character by character. *)
Lemma lits_run p rs k n (s : string) cp :
  run_seq (lits p ++ rs) k (MState n (p +:+ s) cp)
  = run_seq rs k (MState (n + String.length p) s cp).
Proof.
  revert n. induction p as [|c p IH]; intros n; simpl.
  - by rewrite Nat.add_0_r.
  - unfold step. simpl. rewrite Ascii.eqb_refl, IH.
    by rewrite Nat.add_succ_r.
Qed.

Lemma run_char cs k st : run (RChar cs) k st = step cs k st.
Proof. done. Qed.

Lemma run_eol k st : rest st = "" -> run REol k st = k st.
Proof. intros H. simpl. by rewrite H. Qed.

Lemma search_hit r p s cp :
  run (RGroup 0 r) (fun st => Some (caps st)) (MState p s []) = Some cp ->
  search r p s = Some cp.
Proof. destruct s; simpl; by intros ->. Qed.

Lemma device_rx_complete p (a : string) (s : ascii) (w : string) :
  a <> "" -> all (cset_mem CAny) a = true ->
  is_space s = true ->
  w <> "" -> all is_word w = true ->
  is_Some (search (device_rx p) 0 (a +:+ String s (p +:+ w))).
Proof.
  intros Ha Hany Hs Hw Hword.
  assert (is_Some (run (RGroup 0 (device_rx p)) (fun st => Some (caps st))
                     (MState 0 (a +:+ String s (p +:+ w)) []))) as [cp Hrun].
  { rewrite run_group. unfold device_rx. rewrite run_concat.
    cbn [run_seq]. rewrite run_bol by done.
    destruct a as [|c a]; [done |]. simpl in Hany.
    apply andb_prop in Hany as [Hc Hany].
    change (String c a +:+ String s (p +:+ w))
      with (String c (a +:+ String s (p +:+ w))).
    apply plus_complete; [done | done |].
    rewrite run_char. unfold step. cbn [rest pos caps cset_mem]. rewrite Hs.
    rewrite run_group, run_concat, lits_run.
    cbn [run_seq].
    destruct w as [|c' w]; [done |]. simpl in Hword.
    apply andb_prop in Hword as [Hc' Hword].
    rewrite <- (app_nil_r w).
    apply plus_complete; [done | done |].
    rewrite run_eol by done. done. }
  rewrite (search_hit _ _ _ _ Hrun). done.
Qed.

End MatchFacts.

(** * Facts about the line scanner *)

Module ScanFacts.
Import Str StrFacts Regexp Bufio Text.

Lemma app_eq_app (a1 r1 a2 r2 : string) :
  a1 +:+ r1 = a2 +:+ r2 ->
  (exists y, a1 = a2 +:+ y /\ r2 = y +:+ r1)
  \/ (exists y, a2 = a1 +:+ y /\ r1 = y +:+ r2).
Proof.
  revert a2. induction a1 as [|c a1 IH]; intros a2 H.
  - right. exists a2. by simpl in *.
  - destruct a2 as [|c2 a2].
    + left. exists (String c a1). by simpl in *.
    + simpl in H. injection H as -> H.
      destruct (IH _ H) as [(y & -> & ->) | (y & -> & ->)];
        [left | right]; by exists y.
Qed.

Lemma app_inv_head (p a b : string) : p +:+ a = p +:+ b -> a = b.
Proof. induction p as [|c p IH]; simpl; [done |]. intros [= H]. auto. Qed.

Lemma all_dropCR p (s : string) : all p s = true -> all p (dropCR s) = true.
Proof.
  induction s as [|c s IH]; [done |].
  intros H. simpl in H. apply andb_prop in H as [Hc Hs].
  destruct s as [|c' s].
  - simpl. by destruct (is_cr c); simpl; rewrite ?Hc.
  - change (dropCR (String c (String c' s)))
      with (String c (dropCR (String c' s))).
    simpl. rewrite Hc. by apply IH.
Qed.

Lemma split_lines_one_line data :
  Forall (fun l => one_line l = true) (split_lines data).
Proof.
  induction data as [|c data IH]; simpl; [constructor |].
  destruct (is_newline c) eqn:Hc; [by constructor |].
  destruct (split_lines data) as [|l ls].
  - repeat constructor. unfold one_line. simpl. by rewrite Hc.
  - inversion IH; subst. constructor; [| done].
    unfold one_line in *. simpl. by rewrite Hc.
Qed.

Lemma while_fits_Forall (P : string -> Prop) ls :
  Forall P ls -> Forall P (while_fits ls).
Proof.
  induction 1 as [|l ls Hl _ IH]; simpl; [constructor |].
  destruct (fits l); by constructor.
Qed.

(** A token of the scanner holds no newline. *)
Lemma scan_one_line data l : l ∈ scan data -> one_line l = true.
Proof.
  unfold scan. intros (l' & -> & Hin)%list_elem_of_fmap.
  pose proof (while_fits_Forall _ _ (split_lines_one_line data)) as H.
  rewrite Forall_forall in H. apply all_dropCR, H, Hin.
Qed.

Lemma is_newline_lf : is_newline (ascii_of_N 10) = true.
Proof. done. Qed.

(** The first line of a text ends at its first newline. *)
Lemma split_lines_line l rest :
  one_line l = true ->
  split_lines (l +:+ lf +:+ rest) = l :: split_lines rest.
Proof.
  unfold one_line. induction l as [|c l IH]; intros H; [done |].
  simpl in H. apply andb_prop in H as [Hc Hl].
  apply negb_true_iff in Hc.
  change (String c l +:+ lf +:+ rest) with (String c (l +:+ lf +:+ rest)).
  cbn [split_lines]. by rewrite Hc, IH.
Qed.

Lemma split_lines_nonempty c s : split_lines (String c s) <> [].
Proof. simpl. destruct (is_newline c); [done |]. by destruct (split_lines s). Qed.

(** After a complete line the scanner starts afresh. *)
Lemma split_lines_app pre x :
  terminated pre = true ->
  split_lines (pre +:+ x) = split_lines pre ++ split_lines x.
Proof.
  induction pre as [|c pre IH]; intros H; [done |].
  destruct pre as [|c' pre].
  - simpl in H. simpl. by rewrite H.
  - change (terminated (String c (String c' pre)))
      with (terminated (String c' pre)) in H.
    specialize (IH H).
    pose proof (split_lines_nonempty c' pre) as Hne.
    remember (String c' pre) as s eqn:Hs.
    change (String c s +:+ x) with (String c (s +:+ x)).
    cbn [split_lines]. rewrite IH.
    destruct (is_newline c); [done |].
    by destruct (split_lines s).
Qed.

Lemma while_fits_app a b :
  while_fits (a ++ b)
  = if forallb fits a then while_fits a ++ while_fits b else while_fits a.
Proof.
  induction a as [|l a IH]; simpl; [done |].
  destruct (fits l); simpl; [| done]. rewrite IH. by destruct (forallb fits a).
Qed.

Lemma scan_app pre x :
  terminated pre = true ->
  scan (pre +:+ x)
  = if forallb fits (split_lines pre) then scan pre ++ scan x else scan pre.
Proof.
  intros H. unfold scan. rewrite split_lines_app, while_fits_app by done.
  destruct (forallb fits _); [by rewrite map_app | done].
Qed.

(** A line that starts with a text grows with it. *)
Lemma split_lines_head long rest :
  one_line long = true -> long <> "" ->
  exists l0 ls, split_lines (long +:+ rest) = (long +:+ l0) :: ls.
Proof.
  unfold one_line. induction long as [|c long IH]; intros H Hne; [done |].
  simpl in H. apply andb_prop in H as [Hc Hl]. apply negb_true_iff in Hc.
  change (String c long +:+ rest) with (String c (long +:+ rest)).
  cbn [split_lines]. rewrite Hc.
  destruct long as [|c' long].
  - simpl. destruct (split_lines rest) as [|l ls]; [by exists "", [] | by exists l, ls].
  - destruct (IH Hl) as (l0 & ls & ->); [done |]. by exists l0, ls.
Qed.

Lemma fits_app long l0 : fits long = false -> fits (long +:+ l0) = false.
Proof.
  unfold fits. rewrite !N.ltb_ge, length_app. lia.
Qed.

(** Nothing is scanned from the start of a line that does not fit. *)
Lemma scan_long pre long rest :
  terminated pre = true ->
  one_line long = true -> fits long = false ->
  scan (pre +:+ long +:+ rest) = scan pre.
Proof.
  intros Hpre Hone Hfit. rewrite scan_app by done.
  destruct (forallb fits (split_lines pre)); [| done].
  assert (long <> "") as Hne by (by intros ->).
  destruct (split_lines_head long rest Hone Hne) as (l0 & ls & Heq).
  unfold scan at 2. rewrite Heq. simpl. rewrite fits_app by done.
  simpl. by rewrite List.app_nil_r.
Qed.

Lemma no_trailing_cr_spec l : no_trailing_cr l = true -> dropCR l = l.
Proof. unfold no_trailing_cr. by intros ?%String.eqb_eq. Qed.

Lemma dropCR_cr l : dropCR (l +:+ String (ascii_of_N 13) "") = l.
Proof.
  induction l as [|c l IH]; [done |].
  change (String c l +:+ String (ascii_of_N 13) "")
    with (String c (l +:+ String (ascii_of_N 13) "")).
  destruct l as [|c' l]; [done |].
  change (String c' l +:+ String (ascii_of_N 13) "")
    with (String c' (l +:+ String (ascii_of_N 13) "")) in *.
  cbn [dropCR]. cbn [dropCR] in IH. by rewrite IH.
Qed.

Lemma scan_line l rest :
  one_line l = true -> fits l = true ->
  scan (l +:+ lf +:+ rest) = dropCR l :: scan rest.
Proof.
  intros H Hf. unfold scan. rewrite split_lines_line by done.
  simpl. by rewrite Hf.
Qed.

Lemma scan_scannable dos l rest :
  scannable dos l = true ->
  scan (l +:+ eol dos +:+ rest) = l :: scan rest.
Proof.
  unfold scannable. intros [Hone H]%andb_prop.
  destruct dos; cbn [eol].
  - change (l +:+ crlf +:+ rest)
      with (l +:+ (String (ascii_of_N 13) "" +:+ (lf +:+ rest))).
    rewrite <- app_assoc.
    rewrite scan_line, dropCR_cr; [done | |].
    + unfold one_line in *. rewrite all_app, Hone. done.
    + unfold fits in *. rewrite length_app. simpl in *.
      rewrite N.ltb_lt in *. lia.
  - apply andb_prop in H as [Hf Hcr].
    rewrite scan_line by done. by rewrite no_trailing_cr_spec.
Qed.

(** Scanning gives back the lines a text was made of. *)
Lemma scan_unlines dos ls :
  forallb (scannable dos) ls = true ->
  scan (unlines (eol dos) ls) = ls.
Proof.
  induction ls as [|l ls IH]; [done |].
  intros [Hl Hls]%andb_prop. cbn [unlines].
  rewrite scan_scannable by done. by rewrite IH.
Qed.

(** The text after the last line ending is a line of its own. *)
Lemma scan_last l :
  l <> "" -> scannable false l = true -> scan l = [l].
Proof.
  unfold scannable. intros Hne [Hone [Hf Hcr]%andb_prop]%andb_prop.
  assert (split_lines l = [l]) as Hsplit.
  { clear Hf Hcr. revert Hone Hne. unfold one_line.
    induction l as [|c l IH]; [done |]. intros H _.
    simpl in H. apply andb_prop in H as [Hc Hl]. apply negb_true_iff in Hc.
    cbn [split_lines]. rewrite Hc.
    destruct l as [|c' l]; [done |]. by rewrite IH. }
  unfold scan. rewrite Hsplit. simpl. rewrite Hf. simpl.
  by rewrite no_trailing_cr_spec.
Qed.

Lemma terminated_unlines dos ls : terminated (unlines (eol dos) ls) = true.
Proof.
  assert (forall a b, terminated b = true -> b <> "" -> terminated (a +:+ b) = true)
    as Happ.
  { intros a b Hb Hne. induction a as [|c a IH]; [done |].
    change (String c a +:+ b) with (String c (a +:+ b)).
    destruct (a +:+ b) eqn:Heq; [| exact IH].
    destruct a; simpl in Heq; [done | discriminate]. }
  induction ls as [|l ls IH]; [done |].
  cbn [unlines]. apply Happ.
  - destruct dos; cbn [eol] in *.
    + destruct (unlines crlf ls) as [|a s] eqn:Heq; [done |].
      change (crlf +:+ String a s)
        with (String (ascii_of_N 13) (String (ascii_of_N 10) (String a s))).
      exact IH.
    + destruct (unlines lf ls) as [|a s] eqn:Heq; [done |].
      change (lf +:+ String a s)
        with (String (ascii_of_N 10) (String a s)).
      exact IH.
  - by destruct dos.
Qed.

Lemma forallb_fits_unlines dos ls :
  forallb (scannable dos) ls = true ->
  forallb fits (split_lines (unlines (eol dos) ls)) = true.
Proof.
  induction ls as [|l ls IH]; [done |].
  intros [Hl Hls]%andb_prop. specialize (IH Hls). cbn [unlines].
  unfold scannable in Hl. apply andb_prop in Hl as [Hone H].
  destruct dos; cbn [eol] in *.
  - change (l +:+ crlf +:+ unlines crlf ls)
      with (l +:+ (String (ascii_of_N 13) "" +:+ (lf +:+ unlines crlf ls))).
    rewrite <- app_assoc, split_lines_line.
    + cbn [forallb]. rewrite IH, andb_true_r.
      unfold fits in *. rewrite length_app. simpl in *.
      rewrite N.ltb_lt in *. lia.
    + unfold one_line in *. rewrite all_app, Hone. done.
  - apply andb_prop in H as [Hf _].
    rewrite split_lines_line by done. cbn [forallb]. by rewrite Hf, IH.
Qed.

(** The tokens of a text of complete lines and a last line. *)
Lemma scan_text dos ls fin :
  forallb (scannable dos) ls = true ->
  scannable false fin = true ->
  scan (unlines (eol dos) ls +:+ fin)
  = ls ++ match fin with "" => [] | _ => [fin] end.
Proof.
  intros Hls Hfin.
  rewrite scan_app by apply terminated_unlines.
  rewrite forallb_fits_unlines, scan_unlines by done.
  destruct fin as [|x fin]; [done |]. by rewrite scan_last.
Qed.

End ScanFacts.

(** * More about [getLocalDevices] *)

Module DeviceTableFacts.
Import Str StrFacts Regexp RegexpFacts MatchFacts Bufio Text ScanFacts.
Import Client LocalDevicesFacts.

(** A line has at most one reading of the form the device pattern asks
    for: the white space character is the last one of the line. *)
Lemma device_split_unique p a1 s1 w1 a2 s2 w2 :
  a1 +:+ String s1 (p +:+ w1) = a2 +:+ String s2 (p +:+ w2) ->
  is_space s1 = true -> is_space s2 = true ->
  all is_word w1 = true -> all is_word w2 = true ->
  w1 = w2.
Proof.
  intros H Hs1 Hs2 Hw1 Hw2.
  assert (forall s w, is_space s = true -> all is_word w = true ->
            count is_space (String s (p +:+ w)) = S (count is_space p)) as Hcount.
  { intros s w Hs Hw. cbn [count]. rewrite Hs, count_app.
    rewrite (count_all_false is_space is_word w word_not_space Hw). lia. }
  destruct (app_eq_app _ _ _ _ H) as [(y & _ & Hy) | (y & _ & Hy)];
    (destruct y as [|c y];
     [ simpl in Hy; injection Hy as _ Hy; apply app_inv_head in Hy; congruence
     | exfalso; pose proof (f_equal (count is_space) Hy) as Hn;
       rewrite count_app, !Hcount in Hn by done;
       pose proof Hy as Hhead; simpl in Hhead; injection Hhead as <- _;
       cbn [count] in Hn; rewrite ?Hs1, ?Hs2 in Hn; lia ]).
Qed.

(** The loop body finds the entry of every line of the pattern's form. *)
Lemma device_of_line_complete p (a : string) (s : ascii) (w : string) :
  a <> "" -> one_line a = true ->
  is_space s = true ->
  w <> "" -> all is_word w = true ->
  device_of_line {| prog := device_rx p; numSubexp := 1 |}
    (a +:+ String s (p +:+ w))
  = Some ("/dev/" +:+ p +:+ w).
Proof.
  intros Ha Hone Hs Hw Hword.
  destruct (device_rx_complete p a s w Ha Hone Hs Hw Hword) as [cp Hcp].
  unfold device_of_line.
  destruct (find_device_rx p (a +:+ String s (p +:+ w)) _ eq_refl)
    as [Hnil | (a' & s' & w' & Hl & _ & _ & Hs' & _ & Hword' & ->)].
  - unfold FindStringSubmatch in Hnil. cbn [prog] in Hnil.
    rewrite Hcp in Hnil. discriminate.
  - rewrite (device_split_unique _ _ _ _ _ _ _ Hl Hs Hs' Hword Hword'). done.
Qed.

(** The number of groups only grows while a pattern is read. *)
Lemma parse_ncap k : forall s, String.length s <= k ->
  forall n f stk r m, parse s n f stk = Some (r, m) -> n <= m.
Proof.
  induction k as [|k IH]; intros s Hk n f stk r m;
    (destruct s as [|c s];
     [ cbn [parse]; destruct stk; [intros [= _ <-]; lia | done]
     | simpl in Hk; try lia ]).
  assert (forall s', String.length s' <= k ->
            forall n' f' stk', n <= n' ->
              parse s' n' f' stk' = Some (r, m) -> n <= m) as Hrec.
  { intros s' Hs' n' f' stk' Hn H. apply IH in H; [lia | done]. }
  assert (String.length s <= k) as Hs by lia.
  cbn [parse].
  destruct (is_char "(" c).
  { destruct s as [|c2 s2]; [done |]. destruct (is_char "?" c2); [done |].
    apply Hrec; [done | lia]. }
  destruct (is_char ")" c).
  { destruct stk as [|[n0 parent] stk']; [done |]. by apply Hrec. }
  destruct (is_char "|" c); [by apply Hrec |].
  destruct (is_char "\" c).
  { destruct s as [|e s2]; [done |]. destruct (escape e); [| done].
    apply Hrec; [simpl in Hs; lia | done]. }
  destruct (is_char "." c); [by apply Hrec |].
  destruct (is_char "^" c); [by apply Hrec |].
  destruct (is_char "$" c); [by apply Hrec |].
  destruct (rep_of c).
  - destruct (items f) as [|[cs | | | | | |] its]; try done.
    destruct s as [|c2 s2]; [by apply Hrec |].
    destruct (is_char "?" c2); apply Hrec; simpl in Hs; (done || lia).
  - destruct (is_meta c || negb (is_ascii7 c)); [done |]. by apply Hrec.
Qed.

(** The pattern of [getLocalDevices] has a first group whenever it has a
    program. *)
Lemma device_pattern_groups prefix rx :
  MustCompile (device_pattern prefix) = Some rx -> 1 <= numSubexp rx.
Proof.
  unfold MustCompile, device_pattern.
  destruct (prefix +:+ "\w+)$") as [|c t] eqn:Ht.
  { by destruct prefix. }
  assert (parse ("^.+?\s(" +:+ String c t) 0 empty_frame []
          = if is_char "?" c then None
            else parse (String c t) 1 empty_frame
                   [(1, Frame [] [RChar CSpace; RRep CAny Plus false; RBol])])
    as ->.
  { remember (String c t) as u eqn:Hu. simpl. subst u. lazy iota beta.
    by destruct (is_char "?" c). }
  destruct (is_char "?" c); [done |].
  destruct (parse _ _ _ _) as [[r m] |] eqn:Hp; [| done].
  intros [= <-]. simpl. by apply (parse_ncap _ _ (Nat.le_refl _)) in Hp.
Qed.

Lemma omap_length {A B} (f : A -> option B) (l : list A) :
  length (omap f l) <= length l.
Proof.
  induction l as [|x l IH]; simpl; [lia |].
  destruct (f x); simpl; [apply le_n_S | apply le_S]; exact IH.
Qed.

Section WithEnv.
Context {E : Env}.

(** X1. For a prefix without pattern operators, [getLocalDevices]
    returns a name exactly when some scanned line consists of at least
    one character, one white space character, the prefix and at least
    one word character up to the end of the line; the name is then
    [/dev/], the prefix and these word characters.  So no line of this
    form is missed, and nothing else is returned. *)
Theorem getLocalDevices_membership (c : client) (prefix buf : string) :
  all literal prefix = true ->
  ReadFile (Gofig.GetString (config c) "libstorage.client.localdevicesfile")
    = inr buf ->
  exists names,
    getLocalDevices c prefix = Some (Some names, None)
    /\ forall d,
         d ∈ names <->
         exists l a s w,
           l ∈ Bufio.scan buf
           /\ l = a +:+ String s (prefix +:+ w)
           /\ a <> "" /\ is_space s = true
           /\ w <> "" /\ all is_word w = true
           /\ d = "/dev/" +:+ prefix +:+ w.
Proof.
  intros Hlit Hfile. unfold getLocalDevices. rewrite Hfile.
  unfold device_pattern. rewrite (compile_device_pattern prefix Hlit).
  eexists. split; [done |]. intros d. rewrite list_elem_of_omap. split.
  - intros (l & Hin & Hd).
    apply device_of_line_inv in Hd as (a & s & w & Hl & Ha & Hs & Hw & Hword & ->).
    exists l, a, s, w. by split_and!.
  - intros (l & a & s & w & Hin & Hl & Ha & Hs & Hw & Hword & ->).
    exists l. split; [done |]. subst l.
    apply scan_one_line in Hin. unfold one_line in Hin.
    rewrite all_app in Hin. apply andb_prop in Hin as [Hone _].
    by apply device_of_line_complete.
Qed.

(** X2. A device table made of lines that each end with a newline, or
    each with a carriage return and a newline, and possibly a last line
    without line ending, is read line by line: the result holds the
    entries of the lines in the order of the file, an entry for each
    line that has one, so a device listed twice is returned twice.  The
    line endings are not part of the lines. *)
Theorem getLocalDevices_lines (c : client) (prefix : string) (rx : Regexp)
    (dos : bool) (ls : list string) (fin : string) :
  MustCompile (device_pattern prefix) = Some rx ->
  forallb (scannable dos) ls = true ->
  scannable false fin = true ->
  ReadFile (Gofig.GetString (config c) "libstorage.client.localdevicesfile")
    = inr (unlines (eol dos) ls +:+ fin) ->
  getLocalDevices c prefix
  = Some (Some (omap (device_of_line rx)
                  (ls ++ match fin with "" => [] | _ => [fin] end)),
          None).
Proof.
  intros Hrx Hls Hfin Hfile. unfold getLocalDevices. rewrite Hfile, Hrx.
  by rewrite scan_text.
Qed.

(** X3. A line of 65536 bytes or more ends the reading of the device
    table without an error: [getLocalDevices] returns the entries of
    the lines before it, as for a table that ended there, and a nil
    error, whatever follows the long line. *)
Theorem getLocalDevices_long_line (c : client) (prefix : string)
    (rx : Regexp) (pre long rest : string) :
  MustCompile (device_pattern prefix) = Some rx ->
  terminated pre = true ->
  one_line long = true ->
  Bufio.fits long = false ->
  ReadFile (Gofig.GetString (config c) "libstorage.client.localdevicesfile")
    = inr (pre +:+ long +:+ rest) ->
  getLocalDevices c prefix
  = Some (Some (omap (device_of_line rx) (Bufio.scan pre)), None).
Proof.
  intros Hrx Hpre Hone Hfit Hfile. unfold getLocalDevices.
  rewrite Hfile, Hrx. by rewrite scan_long.
Qed.

(** X4. The entries of a device table that continues a table of
    complete lines, none of them too long for the scanner, are the
    entries of the first table followed by those of the
    continuation. *)
Theorem getLocalDevices_append (c : client) (prefix : string)
    (rx : Regexp) (pre more : string) :
  MustCompile (device_pattern prefix) = Some rx ->
  terminated pre = true ->
  forallb Bufio.fits (split_lines pre) = true ->
  ReadFile (Gofig.GetString (config c) "libstorage.client.localdevicesfile")
    = inr (pre +:+ more) ->
  getLocalDevices c prefix
  = Some (Some (omap (device_of_line rx) (Bufio.scan pre)
                ++ omap (device_of_line rx) (Bufio.scan more)),
          None).
Proof.
  intros Hrx Hpre Hfit Hfile. unfold getLocalDevices.
  rewrite Hfile, Hrx, scan_app, Hfit by done.
  by rewrite omap_app.
Qed.

(** X5. [getLocalDevices] reads the file before it compiles the
    pattern: when the file cannot be read it returns no list and the
    error of the read, for every prefix.  When the file was read and
    the pattern has a program, the pattern has a first group, so a
    match holds at least two texts and its second text exists; the
    function returns a list and a nil error, the list has at most one
    name for each scanned line, and each name starts with [/dev/]. *)
Theorem getLocalDevices_result (c : client) (prefix : string) :
  (forall err,
     ReadFile (Gofig.GetString (config c)
                 "libstorage.client.localdevicesfile") = inl err ->
     getLocalDevices c prefix = Some (None, Some err))
  /\ (forall buf rx,
        ReadFile (Gofig.GetString (config c)
                    "libstorage.client.localdevicesfile") = inr buf ->
        MustCompile (device_pattern prefix) = Some rx ->
        (forall l, FindStringSubmatch rx l = []
                   \/ 2 <= length (FindStringSubmatch rx l))
        /\ exists names,
             getLocalDevices c prefix = Some (Some names, None)
             /\ length names <= length (Bufio.scan buf)
             /\ Forall (fun d => has_prefix d "/dev/" = true) names).
Proof.
  unfold getLocalDevices. split.
  - by intros err ->.
  - intros buf rx -> Hrx. rewrite Hrx. split.
    + intros l. unfold FindStringSubmatch.
      destruct (search (prog rx) 0 l); [right | by left].
      rewrite length_map, length_seq.
      pose proof (device_pattern_groups prefix rx Hrx). lia.
    + eexists. split; [done |]. split.
      * apply omap_length.
      * apply Forall_forall. intros d (l & _ & Hd)%list_elem_of_omap.
        unfold device_of_line in Hd.
        destruct (FindStringSubmatch rx l); [done |].
        injection Hd as <-. exact (has_prefix_app "/dev/" _).
Qed.

End WithEnv.

(** X1, witness: the table of the scenario with the name last, and the prefix [xvd]. *)
Lemma getLocalDevices_membership_witness :
  all literal "xvd" = true
  /\ @ReadFile Examples.env_ok
       (Gofig.GetString (config (Examples.tcp_client Examples.env_ok "/etc/name-last"))
          "libstorage.client.localdevicesfile")
     = inr Examples.table_name_last
  /\ exists names,
       @getLocalDevices Examples.env_ok
         (Examples.tcp_client Examples.env_ok "/etc/name-last") "xvd"
       = Some (Some names, None)
       /\ forall d,
            d ∈ names <->
            exists l a s w,
              l ∈ Bufio.scan Examples.table_name_last
              /\ l = a +:+ String s ("xvd" +:+ w)
              /\ a <> "" /\ is_space s = true
              /\ w <> "" /\ all is_word w = true
              /\ d = "/dev/" +:+ "xvd" +:+ w.
Proof.
  split; [reflexivity |]. split; [reflexivity |].
  apply (@getLocalDevices_membership Examples.env_ok); reflexivity.
Defined.

(** X2, witness: a table in the DOS format that lists a device twice and ends without line ending. *)
Lemma getLocalDevices_lines_witness :
  MustCompile (device_pattern "xvd")
    = Some {| prog := device_rx "xvd"; numSubexp := 1 |}
  /\ forallb (scannable true) Cases.dos_lines = true
  /\ scannable false "202:32 disk xvdc" = true
  /\ @getLocalDevices Cases.env_files
       (Examples.tcp_client Cases.env_files "/etc/dos") "xvd"
     = Some (Some ["/dev/xvdb"; "/dev/xvdb"; "/dev/xvdc"], None).
Proof.
  split_and!; [reflexivity .. |].
  apply (@getLocalDevices_lines Cases.env_files _ "xvd"
           {| prog := device_rx "xvd"; numSubexp := 1 |} true
           Cases.dos_lines "202:32 disk xvdc"); reflexivity.
Defined.

(** X3, witness: a line of 65536 characters between two lines that name a device. *)
Lemma getLocalDevices_long_line_witness :
  MustCompile (device_pattern "")
    = Some {| prog := device_rx ""; numSubexp := 1 |}
  /\ terminated ("8:0 disk sda" +:+ nl) = true
  /\ one_line Cases.long_line = true
  /\ Bufio.fits Cases.long_line = false
  /\ @getLocalDevices Cases.env_files
       (Examples.tcp_client Cases.env_files "/etc/long") ""
     = Some (Some ["/dev/sda"], None).
Proof.
  split_and!; [reflexivity | reflexivity | vm_compute; reflexivity
               | vm_compute; reflexivity |].
  apply (@getLocalDevices_long_line Cases.env_files _ ""
           {| prog := device_rx ""; numSubexp := 1 |}
           ("8:0 disk sda" +:+ nl) Cases.long_line
           (nl +:+ "202:16 disk xvdb" +:+ nl));
    [reflexivity | reflexivity | vm_compute; reflexivity
     | vm_compute; reflexivity | reflexivity].
Defined.

(** X4, witness: the first line of a table and the rest of it. *)
Lemma getLocalDevices_append_witness :
  MustCompile (device_pattern "sd")
    = Some {| prog := device_rx "sd"; numSubexp := 1 |}
  /\ terminated ("8:0 disk sda" +:+ nl) = true
  /\ forallb Bufio.fits (split_lines ("8:0 disk sda" +:+ nl)) = true
  /\ @getLocalDevices Examples.env_ok
       (Examples.tcp_client Examples.env_ok "/etc/name-last") "sd"
     = Some (Some (["/dev/sda"] ++ []), None).
Proof.
  split_and!; [reflexivity .. |].
  apply (@getLocalDevices_append Examples.env_ok _ "sd"
           {| prog := device_rx "sd"; numSubexp := 1 |}
           ("8:0 disk sda" +:+ nl)
           ("202:16 disk xvdb" +:+ nl +:+ "no-match-line" +:+ nl));
    reflexivity.
Defined.

(** X5, witness: a file that does not exist, with a prefix whose
    pattern has no program; and a prefix with an operator. *)
Lemma getLocalDevices_result_witness :
  @getLocalDevices Examples.env_ok
    (Examples.tcp_client Examples.env_ok "/nowhere") "?:x"
  = Some (None, Some (os_PathError "open" "/nowhere" "no such file or directory"))
  /\ exists rx,
       MustCompile (device_pattern "sd|xvd") = Some rx
       /\ (forall l, FindStringSubmatch rx l = []
                     \/ 2 <= length (FindStringSubmatch rx l))
       /\ exists names,
            @getLocalDevices Examples.env_ok
              (Examples.tcp_client Examples.env_ok "/etc/name-last") "sd|xvd"
            = Some (Some names, None)
            /\ length names <= length (Bufio.scan Examples.table_name_last)
            /\ Forall (fun d => has_prefix d "/dev/" = true) names.
Proof.
  split.
  - apply (proj1 (@getLocalDevices_result Examples.env_ok
             (Examples.tcp_client Examples.env_ok "/nowhere") "?:x")).
    reflexivity.
  - eexists. split; [reflexivity |].
    apply (proj2 (@getLocalDevices_result Examples.env_ok
             (Examples.tcp_client Examples.env_ok "/etc/name-last") "sd|xvd"));
      reflexivity.
Defined.

End DeviceTableFacts.

(** * More about [Dial] and the exchanges *)

Module SessionFacts.
Import Str StrFacts Json JsonFacts Client ClientFacts DispatchFacts.
Import Bufio Text ScanFacts.

Lemma skip_ws_all ws s : all is_ws ws = true -> skip_ws (ws +:+ s) = skip_ws s.
Proof.
  induction ws as [|c ws IH]; [done |].
  intros [Hc Hws]%andb_prop.
  change (String c ws +:+ s) with (String c (ws +:+ s)).
  cbn [skip_ws]. rewrite Hc. by apply IH.
Qed.

Lemma ws_stops c s : is_ws c = true -> stops (String c s) = true.
Proof. revert s. by_cases c. Qed.

(** White space around a JSON text is skipped. *)
Lemma Unmarshal_padded t v cur ws1 ws2 :
  representable t v = true ->
  all is_ws ws1 = true -> all is_ws ws2 = true ->
  Unmarshal (ws1 +:+ text_of v +:+ ws2) t cur = inr v.
Proof.
  intros Hr H1 H2. unfold Unmarshal, parse.
  rewrite skip_ws_all by done.
  destruct (text_head t v Hr) as (c & s & Htext & Hstart).
  assert (skip_ws (text_of v +:+ ws2) = text_of v +:+ ws2) as ->.
  { rewrite Htext. change (String c s +:+ ws2) with (String c (s +:+ ws2)).
    by apply skip_ws_start. }
  rewrite (parse_text v t Hr).
  - assert (skip_ws ws2 = "") as ->.
    { rewrite <- (app_nil_r ws2). by rewrite skip_ws_all. }
    by apply store_tree.
  - pose proof (size_le_length v t Hr). rewrite !length_app. lia.
  - destruct ws2 as [|c2 ws2]; [done |].
    apply andb_prop in H2 as [Hc2 _]. by apply ws_stops.
Qed.

Section WithEnv.
Context {E : Env}.

(** X6. [Dial] returns a client, with a nil error, exactly when the
    setting [libstorage.host] is not empty, [utils.ParseTLSConfig]
    accepts the client's scope of the configuration and
    [gotil.ParseAddress] accepts the host.  In every other case it
    returns no client and an error, and has logged nothing. *)
Theorem Dial_succeeds (ctx0 : option Context) (config : Gofig.Config) :
  let host := Gofig.GetString config "libstorage.host" in
  ((exists c, (Dial ctx0 config).2 = (Some c, None))
   <-> host <> ""
       /\ (exists r, ParseTLSConfig (Gofig.Scope config "libstorage.client") = inr r)
       /\ (exists r, ParseAddress host = inr r))
  /\ ((exists c, (Dial ctx0 config).2 = (Some c, None))
      \/ (exists err, Dial ctx0 config = ([], (None, Some err)))).
Proof.
  intros host.
  destruct (Dial_cases ctx0 config)
    as [[Hh Hd] | [(Hh & e & Ht & Hd) | [(Hh & [r Ht] & e & Ha & Hd)
        | (Hh & tls & fields & p & a & c & Ht & Ha & Hd & _)]]];
    fold host in Hh; try fold host in Ha.
  - split; [| right; eauto]. rewrite Hd. split.
    + by intros [c [=]].
    + by intros [? _].
  - split; [| right; eauto]. rewrite Hd. split.
    + by intros [c [=]].
    + intros (_ & [r Hr] & _). congruence.
  - split; [| right; eauto]. rewrite Hd. split.
    + by intros [c [=]].
    + intros (_ & _ & [r' Hr]). congruence.
  - split; [| left; eauto]. split; [| eauto].
    intros _. split_and!; eauto.
Qed.

(** X7. The client [Dial] returns holds the configuration it was
    given, the TLS configuration and the address that were parsed, and
    the two logging flags as the configuration has them.  Its context
    is the one [WithContextID] returns for the identifier [host], the
    configured host and the given context, or the background context
    when the given one is nil.  [Dial] then has logged [configured
    client] once, with the fields of the TLS settings, after a note
    about the context if it had to make one. *)
Theorem Dial_client (ctx0 : option Context) (config : Gofig.Config)
    (c : client) :
  (Dial ctx0 config).2 = (Some c, None) ->
  let host := Gofig.GetString config "libstorage.host" in
  Client.config c = config
  /\ logRequests c
     = Gofig.GetBool config "libstorage.client.http.logging.logrequest"
  /\ logResponses c
     = Gofig.GetBool config "libstorage.client.http.logging.logresponse"
  /\ ctx c = WithContextID "host" host (default Background ctx0)
  /\ exists tls fields p a,
       ParseTLSConfig (Gofig.Scope config "libstorage.client")
         = inr (tls, fields)
       /\ ParseAddress host = inr (p, a)
       /\ tlsConfig c = tls /\ proto c = p /\ laddr c = a
       /\ (Dial ctx0 config).1
          = match ctx0 with
            | None => [LogDebug ∅ "created empty context for client"]
            | Some _ => []
            end ++ [LogInfo fields "configured client"].
Proof.
  unfold Dial.
  destruct (String.eqb _ _); [done |].
  destruct (ParseTLSConfig _) as [e | [tls fields]]; [done |].
  destruct (ParseAddress _) as [e | [p a]]; [done |].
  assert (fields ∪ ∅ = fields) as -> by apply (right_id_L ∅ (∪)).
  destruct ctx0 as [given |]; simpl; intros [= <-]; simpl;
    (split_and!; try done; by exists tls, fields, p, a).
Qed.

Lemma Dial_flags (ctx0 : option Context) (config : Gofig.Config) (c : client) :
  (Dial ctx0 config).2 = (Some c, None) ->
  logRequests c
    = Gofig.GetBool config "libstorage.client.http.logging.logrequest"
  /\ logResponses c
     = Gofig.GetBool config "libstorage.client.http.logging.logresponse".
Proof.
  unfold Dial.
  destruct (String.eqb _ _); [done |].
  destruct (ParseTLSConfig _) as [e | [tls fields]]; [done |].
  destruct (ParseAddress _) as [e | [p a]]; [done |].
  by destruct ctx0; simpl; intros [= <-].
Qed.

(** X8. What an exchange logs, stage by stage: nothing when the
    payload cannot be encoded; otherwise the request URL, and nothing
    more when [http.NewRequest] rejects the request; then what
    [logRequest] writes for the request, and nothing more when the round
    trip fails; then what [logResponse] writes for the response.
    Decoding logs nothing, whether it fails or not. *)
Theorem httpDo_output {R} (c : client) (method path : string)
    (payload : option value) (reply : Reply R) :
  output (httpDo c method path payload reply)
  = match encPayload payload with
    | inl _ => []
    | inr body =>
        let req := sent c method path body in
        LogDebug {[ "url" := URL req ]} "built request url"
        :: match request_error method (URL req) with
           | Some _ => []
           | None =>
               (logRequest c req).1
               ++ match ctxhttp_Do (ctx c) (httpClient c) req with
                  | inl _ => []
                  | inr res => (logResponse c res).1
                  end
           end
    end.
Proof.
  unfold httpDo, output, bind, lift, tell, NewRequest, sent.
  destruct (encPayload payload) as [err | body]; [done |]. simpl.
  destruct (request_error _ _) as [err |]; [done |]. simpl.
  pose proof (logRequest_request c
    {| Method := method; URL := "http://" +:+ request_host c +:+ path;
       ReqBody := body |}) as Hreq.
  destruct (logRequest c _) as [l1 req']. simpl in Hreq. subst req'. simpl.
  destruct (ctxhttp_Do _ _ _) as [e | res]; simpl.
  - by rewrite List.app_nil_r.
  - destruct (logResponse c res) as [l2 res']. simpl.
    by rewrite List.app_nil_r.
Qed.

(** X9. A client dialed from a configuration in which the two logging
    settings are absent or false logs nothing of the requests and
    responses themselves: for every exchange that gets past the
    encoding of its payload the log holds the request URL and nothing
    else. *)
Theorem quiet_by_default {R} (ctx0 : option Context)
    (config : Gofig.Config) (c : client) (method path : string)
    (payload : option value) (reply : Reply R) :
  Gofig.GetBool config "libstorage.client.http.logging.logrequest" = false ->
  Gofig.GetBool config "libstorage.client.http.logging.logresponse" = false ->
  (Dial ctx0 config).2 = (Some c, None) ->
  output (httpDo c method path payload reply)
  = match encPayload payload with
    | inl _ => []
    | inr _ =>
        [LogDebug {[ "url" := "http://" +:+ request_host c +:+ path ]}
           "built request url"]
    end.
Proof.
  intros Hreq Hres Hdial.
  destruct (Dial_flags _ _ _ Hdial) as [Hq Hs].
  rewrite Hreq in Hq. rewrite Hres in Hs.
  unfold httpDo, output, bind, lift, tell, NewRequest.
  destruct (encPayload payload) as [err | body]; [done |]. simpl.
  destruct (request_error _ _); [done |]. simpl.
  unfold logRequest. rewrite Hq. simpl.
  destruct (ctxhttp_Do _ _ _); [done |]. simpl.
  unfold logResponse. by rewrite Hs.
Qed.

(** X10. When the request is accepted, the round trip succeeds and the
    body of the response can be read to its end and is the JSON text of
    a value of the reply's type, with or without white space around
    it, the exchange returns this value, whatever the reply held
    before. *)
Theorem exchange_decodes (c : client) (method path : string)
    (payload : option value) (t : type) (cur : value)
    (body : option string) (res : Response) (v : value)
    (ws1 ws2 : string) :
  encPayload payload = inr body ->
  request_error method (URL (sent c method path body)) = None ->
  ctxhttp_Do (ctx c) (httpClient c) (sent c method path body) = inr res ->
  Body res = {| content := ws1 +:+ text_of v +:+ ws2; fault := None |} ->
  all is_ws ws1 = true -> all is_ws ws2 = true ->
  representable t v = true ->
  outcome (httpDo c method path payload (ptr t cur)) = inr v.
Proof.
  intros Hbody Hreq Hdo Hres H1 H2 Hr.
  rewrite httpDo_stages, Hbody. cbv zeta. rewrite Hreq, Hdo.
  unfold decRes, ReadAll, ptr. rewrite Hres. simpl.
  by apply Unmarshal_padded.
Qed.

(** X11. [Root] returns the list the server sent and a nil error when
    the body of the answer is the JSON text of a list of strings, also
    when the text has white space around it, such as a newline at its
    end; a JSON [null] gives the nil list. *)
Theorem Root_decodes (c : client) (res : Response) (v : value)
    (ws1 ws2 : string) :
  request_error "GET" (URL (sent c "GET" "/" None)) = None ->
  ctxhttp_Do (ctx c) (httpClient c) (sent c "GET" "/" None) = inr res ->
  Body res = {| content := ws1 +:+ text_of v +:+ ws2; fault := None |} ->
  all is_ws ws1 = true -> all is_ws ws2 = true ->
  representable RootResponse v = true ->
  (Root c).2 = (v, None).
Proof.
  intros Hreq Hdo Hres H1 H2 Hr.
  rewrite ExchangeFacts.Root_outcome. unfold httpGet.
  rewrite httpDo_stages. cbn [encPayload]. cbv zeta. rewrite Hreq, Hdo.
  unfold decRes, ReadAll, ptr. rewrite Hres. simpl.
  by rewrite Unmarshal_padded.
Qed.

(** X12. [httpPost] against a server that sends the body of the request
    back returns the payload: a representable payload survives the
    way through [encPayload], the request, the response and
    [decRes]. *)
Theorem httpPost_echo (c : client) (path : string) (v : value)
    (t : type) (cur : value) (buf : string) (res : Response) :
  representable t v = true ->
  Marshal v = inr buf ->
  request_error "POST" (URL (sent c "POST" path (Some buf))) = None ->
  ctxhttp_Do (ctx c) (httpClient c) (sent c "POST" path (Some buf))
    = inr res ->
  Body res = {| content := buf; fault := None |} ->
  outcome (httpPost c path (Some v) (ptr t cur)) = inr v.
Proof.
  intros Hr Hm Hreq Hdo Hres.
  destruct (Unmarshal_Marshal t v cur Hr) as [Hm' Hu].
  rewrite Hm in Hm'. injection Hm' as ->.
  unfold httpPost. rewrite httpDo_stages. unfold encPayload. rewrite Hm.
  cbv zeta. rewrite Hreq, Hdo.
  unfold decRes, ReadAll, ptr. rewrite Hres. simpl. exact Hu.
Qed.

(** X13. With the flag for responses set, [logResponse] writes an
    empty line and the banner, and then the indented wire text line by
    line, each line followed by a newline.  A wire text whose lines end
    with a carriage return and a newline is logged without the carriage
    returns, and a last line without line ending gets a newline.  The
    response itself is left as it was. *)
Theorem logResponse_lines (c : client) (res : Response) (buf : string)
    (dos : bool) (ls : list string) (fin : string) :
  logResponses c = true ->
  fault (Body res) = None ->
  response_dump res = inr buf ->
  WriteIndented buf = unlines (eol dos) ls +:+ fin ->
  forallb (scannable dos) ls = true ->
  scannable false fin = true ->
  logResponse c res
  = (LogWrite nl :: banner "HTTP RESPONSE (CLIENT)"
     ++ map (fun l => LogWrite (l +:+ nl))
          (ls ++ match fin with "" => [] | _ => [fin] end),
     res).
Proof.
  intros Hflag Hfault Hdump Hbw Hls Hfin.
  unfold logResponse, DumpResponse. rewrite Hflag, Hfault. simpl.
  rewrite Hdump, Hbw, scan_text by done.
  destruct res as [code hdr [body flt]]. simpl in *. by subst flt.
Qed.

(** X14. A response whose body is empty or holds white space only
    makes the exchange fail with a syntax error of the JSON decoder,
    for every method and every type of reply: an answer without
    content is not taken for a success. *)
Theorem empty_body_fails (c : client) (method path : string)
    (payload : option value) (t : type) (cur : value)
    (body : option string) (res : Response) :
  encPayload payload = inr body ->
  request_error method (URL (sent c method path body)) = None ->
  ctxhttp_Do (ctx c) (httpClient c) (sent c method path body) = inr res ->
  fault (Body res) = None ->
  all is_ws (content (Body res)) = true ->
  exists msg,
    outcome (httpDo c method path payload (ptr t cur))
    = inl (json_SyntaxError msg).
Proof.
  intros Hbody Hreq Hdo Hfault Hws.
  rewrite httpDo_stages, Hbody. cbv zeta. rewrite Hreq, Hdo.
  unfold decRes, ReadAll, ptr. rewrite Hfault.
  unfold Unmarshal, parse.
  assert (skip_ws (content (Body res)) = "") as ->.
  { rewrite <- (app_nil_r (content (Body res))). by rewrite skip_ws_all. }
  by eexists.
Qed.

End WithEnv.

(** X15. The status code and the header of a response play no part in
    an exchange: with any other status code and header on the responses
    the outcome of [httpDo], [Root] and [Volumes] is the same.  So a
    response with an error status is decoded like any other. *)
Theorem status_ignored (E : Env) (c : client) (code : nat)
    (hdr : list (string * string))
    (method path : string) (payload : option value)
    {R} (reply : Reply R) :
  outcome (httpDo (E := Cases.answering (Cases.relabel code hdr) E) c
             method path payload reply)
  = outcome (httpDo (E := E) c method path payload reply)
  /\ (Root (E := Cases.answering (Cases.relabel code hdr) E) c).2
     = (Root (E := E) c).2
  /\ (forall M (nil : M) (volumes : Reply M),
        (Volumes (E := Cases.answering (Cases.relabel code hdr) E)
           nil volumes c).2
        = (Volumes (E := E) nil volumes c).2).
Proof.
  assert (H : forall T method path payload (reply : Reply T),
    outcome (httpDo (E := Cases.answering (Cases.relabel code hdr) E) c
               method path payload reply)
    = outcome (httpDo (E := E) c method path payload reply)).
  { intros T m p pl rp. rewrite !httpDo_stages.
    destruct (encPayload pl) as [err | body]; [done |]. cbv zeta.
    change (@request_error (Cases.answering (Cases.relabel code hdr) E))
      with (@request_error E).
    destruct (request_error _ _); [done |].
    change (@ctxhttp_Do (Cases.answering (Cases.relabel code hdr) E)
              (ctx c) (httpClient c) (sent c m p body))
      with (match @ctxhttp_Do E (ctx c) (httpClient c) (sent c m p body) with
            | inl e => inl e
            | inr res => inr (Cases.relabel code hdr res)
            end).
    by destruct (ctxhttp_Do _ _ _). }
  split_and!.
  - apply H.
  - rewrite !ExchangeFacts.Root_outcome. unfold httpGet. by rewrite H.
  - intros M nil volumes. rewrite !ExchangeFacts.Volumes_outcome.
    unfold httpGet. by rewrite H.
Qed.

(** X14, witness: [httpDelete] and an answer without content. *)
Lemma empty_body_fails_witness :
  exists msg,
    outcome (httpDelete (E := Cases.env_no_content)
               (Examples.tcp_client Cases.env_no_content "") "/volumes/1"
               (ptr RootResponse (VSlice [])))
    = inl (json_SyntaxError msg).
Proof.
  apply (empty_body_fails (E := Cases.env_no_content)
           (Examples.tcp_client Cases.env_no_content "") "DELETE" "/volumes/1"
           None RootResponse (VSlice []) None Cases.no_content); reflexivity.
Defined.

(** X7, witness: a context that carries an identifier, and TLS
    settings. *)
Lemma Dial_client_witness :
  exists c,
    (Dial (E := Examples.env_tls) (Some Cases.tagged)
       (Examples.settings "tcp://127.0.0.1:7979" "")).2 = (Some c, None)
    /\ logRequests c = true
    /\ ctx c = Examples.with_id "host" "tcp://127.0.0.1:7979" Cases.tagged
    /\ proto c = "tcp" /\ laddr c = "127.0.0.1:7979".
Proof.
  eexists. split; [vm_compute; reflexivity |].
  destruct (Dial_client (E := Examples.env_tls) (Some Cases.tagged)
              (Examples.settings "tcp://127.0.0.1:7979" "") _ eq_refl)
    as (_ & Hq & _ & Hctx & _).
  split_and!; [exact Hq | exact Hctx | reflexivity | reflexivity].
Defined.

(** X9, witness: settings that name the host only. *)
Lemma quiet_by_default_witness :
  Gofig.GetBool (Cases.host_only "tcp://127.0.0.1:7979")
    "libstorage.client.http.logging.logrequest" = false
  /\ Gofig.GetBool (Cases.host_only "tcp://127.0.0.1:7979")
       "libstorage.client.http.logging.logresponse" = false
  /\ exists c,
       (Dial (E := Examples.env_ok) None
          (Cases.host_only "tcp://127.0.0.1:7979")).2 = (Some c, None)
       /\ output (httpDo (E := Examples.env_ok) c "GET" "/" None
                    (ptr RootResponse (VSlice [])))
          = [LogDebug {[ "url" := "http://" +:+ request_host c +:+ "/" ]}
               "built request url"].
Proof.
  split_and!; [reflexivity | reflexivity |].
  eexists. split; [vm_compute; reflexivity |].
  apply (quiet_by_default (E := Examples.env_ok) None
           (Cases.host_only "tcp://127.0.0.1:7979") _ "GET" "/" None
           (ptr RootResponse (VSlice []))); reflexivity.
Defined.

(** X10, witness: an answer with a space before and a newline after the list. *)
Lemma exchange_decodes_witness :
  all is_ws " " = true /\ all is_ws nl = true
  /\ representable RootResponse Cases.roots = true
  /\ outcome (httpDo (E := Cases.env_padded)
                (Examples.tcp_client Cases.env_padded "") "DELETE" "/volumes/1"
                None (ptr RootResponse (VSlice [VString "old"])))
     = inr Cases.roots.
Proof.
  split_and!; [reflexivity .. |].
  apply (exchange_decodes (E := Cases.env_padded)
           (Examples.tcp_client Cases.env_padded "") "DELETE" "/volumes/1"
           None RootResponse (VSlice [VString "old"]) None
           (Examples.answer {| content := Cases.root_padded; fault := None |})
           Cases.roots " " nl); reflexivity.
Defined.

(** X11, witness: an answer with a space before and a newline after
    the list. *)
Lemma Root_decodes_witness :
  all is_ws " " = true /\ all is_ws nl = true
  /\ representable RootResponse Cases.roots = true
  /\ (Root (E := Cases.env_padded) (Examples.tcp_client Cases.env_padded "")).2
     = (Cases.roots, None).
Proof.
  split_and!; [reflexivity .. |].
  apply (Root_decodes (E := Cases.env_padded)
           (Examples.tcp_client Cases.env_padded "")
           (Examples.answer {| content := Cases.root_padded; fault := None |})
           Cases.roots " " nl); reflexivity.
Defined.

(** X12, witness: a payload of type [[][]string] with escapes, a nil and an empty slice. *)
Lemma httpPost_echo_witness :
  representable (TSlice (TSlice TString)) Examples.names = true
  /\ exists buf,
       Marshal Examples.names = inr buf
       /\ outcome (httpPost (E := Cases.env_echo)
                     (Examples.tcp_client Cases.env_echo "") "/volumes"
                     (Some Examples.names) (ptr (TSlice (TSlice TString)) VNil))
          = inr Examples.names.
Proof.
  split; [reflexivity |]. eexists. split; [vm_compute; reflexivity |].
  eapply (httpPost_echo (E := Cases.env_echo)
            (Examples.tcp_client Cases.env_echo "") "/volumes" Examples.names
            (TSlice (TSlice TString)) VNil);
    [reflexivity | vm_compute; reflexivity | reflexivity
     | reflexivity | reflexivity].
Defined.

(** X13, witness: a wire text with a head in the format of HTTP and a body without line ending. *)
Lemma logResponse_lines_witness :
  forallb (scannable true) ["HTTP/1.1 200 OK"; ""] = true
  /\ scannable false Examples.root_json = true
  /\ logResponse (E := Cases.env_wire) (Examples.tcp_client Cases.env_wire "")
       (Examples.answer {| content := Examples.root_json; fault := None |})
     = ([LogWrite nl;
         LogWrite "    -------------------------- ";
         LogWrite "HTTP RESPONSE (CLIENT)";
         LogWrite (" -------------------------" +:+ nl);
         LogWrite ("HTTP/1.1 200 OK" +:+ nl);
         LogWrite nl;
         LogWrite (Examples.root_json +:+ nl)],
        Examples.answer {| content := Examples.root_json; fault := None |}).
Proof.
  split_and!; [reflexivity | reflexivity |].
  apply (logResponse_lines (E := Cases.env_wire)
           (Examples.tcp_client Cases.env_wire "")
           (Examples.answer {| content := Examples.root_json; fault := None |})
           ("HTTP/1.1 200 OK" +:+ crlf +:+ crlf +:+ Examples.root_json)
           true ["HTTP/1.1 200 OK"; ""] Examples.root_json); reflexivity.
Defined.

End SessionFacts.
